(** * mesh-quai: configuration loading and address checksumming

    A shallow embedding of [configuration/configuration.go]
    ([LoadConfiguration]) and of the address helpers of package
    [ethereum] ([ChecksumAddress], [MustChecksum]), together with the
    parts of Go's [strconv], [errors], [fmt], [os] and [log] packages that
    these functions call.

    Conventions.
    - A Go [string] is a sequence of bytes: [string] of [Stdlib.Strings],
      whose characters are the 256 byte values; [len] is [String.length].
    - Go's [int], [int64] and [uint64] are [Z]; wrap-around is written out
      with [wrap_uint64] and [wrap_int64] wherever the source computes on
      them.
    - A Go pointer that may be [nil] is an [option]; a pair [(v, err)]
      returned by a Go function is a pair whose second component is
      [None] for a [nil] error.
    - The process environment read by [os.Getenv] is a finite map from
      variable names to values, threaded through the loader as state. *)

From Stdlib Require Import ZArith String Ascii List Bool Lia.
From stdpp Require Import base option gmap strings.

Local Open Scope Z_scope.

(** ** Machine integers *)

Definition wrap_uint64 (z : Z) : Z := z mod 2 ^ 64.

Definition wrap_int64 (z : Z) : Z := (z + 2 ^ 63) mod 2 ^ 64 - 2 ^ 63.

Definition wrap_byte (z : Z) : Z := z mod 256.

(** The numeric value of a byte of a string. *)
Definition byte_val (c : ascii) : Z := Z.of_N (N_of_ascii c).

(** [len(s)] *)
Definition len (s : string) : Z := Z.of_nat (String.length s).

(** [p != nil] for a pointer or an interface value. *)
Definition not_nil {A : Type} (p : option A) : bool :=
  match p with
  | Some _ => true
  | None => false
  end.

(** ** Package strconv (Go standard library) *)

Module strconv.

(** [ErrSyntax] and [ErrRange], the two causes a [NumError] of the
    functions below can carry. *)
Inductive Err := ErrSyntax | ErrRange.

Definition Err_Error (e : Err) : string :=
  match e with
  | ErrSyntax => "invalid syntax"
  | ErrRange => "value out of range"
  end.

(** [type NumError struct { Func string; Num string; Err error }] *)
Record NumError := mkNumError { Func : string; Num : string; Cause : Err }.

Definition syntaxError (fn str : string) : NumError := mkNumError fn str ErrSyntax.
Definition rangeError (fn str : string) : NumError := mkNumError fn str ErrRange.

(** [IntSize], the size of an [int], at its value on 64-bit platforms. *)
Definition IntSize : Z := 64.

Definition maxUint64 : Z := 2 ^ 64 - 1.

(** [func ParseBool(str string) (bool, error)]: a switch over twelve
    literal tokens. *)
Definition ParseBool (str : string) : bool * option NumError :=
  if existsb (String.eqb str) ["1"; "t"; "T"; "true"; "TRUE"; "True"]%string then
    (true, None)
  else if existsb (String.eqb str) ["0"; "f"; "F"; "false"; "FALSE"; "False"]%string then
    (false, None)
  else (false, Some (syntaxError "ParseBool" str)).

(** [lower(c)]: [c | ('x' - 'X')]. *)
Definition lower (c : Z) : Z := Z.lor c 32.

(** The digit switch in the loop of [ParseUint], at [base0 = false]:
    the value [d] of the byte, or [None] for the [default] case. *)
Definition digit_of (c : ascii) : option Z :=
  let b := byte_val c in
  if (48 <=? b) && (b <=? 57) then Some (b - 48)
  else if (97 <=? lower b) && (lower b <=? 122) then Some (wrap_byte (lower b - 97 + 10))
  else None.

(** The loop of [ParseUint] at [base = 10] and [bitSize = 0], as [Atoi]
    reaches it through [ParseInt(s, 10, 0)]: [cutoff = maxUint64/10 + 1]
    and [maxVal = 1<<64 - 1]. [s0] is the whole argument, [s] the bytes
    still to read and [n] the value accumulated so far. *)
Fixpoint ParseUint_loop (s0 s : string) (n : Z) : Z * option NumError :=
  match s with
  | EmptyString => (n, None)
  | String c rest =>
      match digit_of c with
      | None => (0, Some (syntaxError "ParseUint" s0))
      | Some d =>
          let cutoff := maxUint64 / 10 + 1 in
          let maxVal := wrap_uint64 (wrap_uint64 (Z.shiftl 1 IntSize) - 1) in
          if 10 <=? d then (0, Some (syntaxError "ParseUint" s0))
          else if cutoff <=? n then (maxVal, Some (rangeError "ParseUint" s0))
          else
            let n := wrap_uint64 (n * 10) in
            let n1 := wrap_uint64 (n + d) in
            if (n1 <? n) || (maxVal <? n1) then (maxVal, Some (rangeError "ParseUint" s0))
            else ParseUint_loop s0 rest n1
      end
  end.

(** [ParseUint(s, 10, 0)] *)
Definition ParseUint (s : string) : Z * option NumError :=
  if String.eqb s "" then (0, Some (syntaxError "ParseUint" s))
  else ParseUint_loop s s 0.

(** [ParseInt(s, 10, 0)] from the call of [ParseUint] on: [s0] is the
    whole argument, [neg] the sign picked off and [s] the text after
    it. *)
Definition ParseInt_unsigned (s0 : string) (neg : bool) (s : string)
  : Z * option NumError :=
  let '(un, err) := ParseUint s in
  match err with
  | Some (mkNumError _ _ ErrSyntax) => (0, Some (mkNumError "ParseInt" s0 ErrSyntax))
  | _ =>
      let cutoff := wrap_uint64 (Z.shiftl 1 (IntSize - 1)) in
      if negb neg && (cutoff <=? un) then
        (wrap_int64 (cutoff - 1), Some (rangeError "ParseInt" s0))
      else if neg && (cutoff <? un) then
        (wrap_int64 (- wrap_int64 cutoff), Some (rangeError "ParseInt" s0))
      else
        let n := wrap_int64 un in
        let n := if neg then wrap_int64 (- n) else n in
        (n, None)
  end.

(** [ParseInt(s, 10, 0)] *)
Definition ParseInt (s : string) : Z * option NumError :=
  match s with
  | EmptyString => (0, Some (syntaxError "ParseInt" s))
  | String c rest =>
      let s0 := s in
      if Ascii.eqb c "+" then ParseInt_unsigned s0 false rest
      else if Ascii.eqb c "-" then ParseInt_unsigned s0 true rest
      else ParseInt_unsigned s0 false s
  end.

(** The loop of the fast path of [Atoi]. *)
Fixpoint Atoi_loop (s0 s : string) (n : Z) : Z * option NumError :=
  match s with
  | EmptyString => (n, None)
  | String ch rest =>
      let ch := wrap_byte (byte_val ch - 48) in
      if 9 <? ch then (0, Some (syntaxError "Atoi" s0))
      else Atoi_loop s0 rest (wrap_int64 (n * 10 + ch))
  end.

(** [func Atoi(s string) (int, error)] at [intSize = 64]. *)
Definition Atoi (s : string) : Z * option NumError :=
  let sLen := len s in
  if (0 <? sLen) && (sLen <? 19) then
    let s0 := s in
    match s with
    | EmptyString => (0, None) (* unreachable: 0 < sLen *)
    | String c rest =>
        let s := if Ascii.eqb c "-" || Ascii.eqb c "+" then rest else s in
        if (Ascii.eqb c "-" || Ascii.eqb c "+") && (len s <? 1) then
          (0, Some (syntaxError "Atoi" s0))
        else
          let '(n, err) := Atoi_loop s0 s 0 in
          match err with
          | Some e => (0, Some e)
          | None => (if Ascii.eqb c "-" then wrap_int64 (- n) else n, None)
          end
    end
  else
    let '(i64, err) := ParseInt s in
    (i64, option_map (fun nerr => mkNumError "Atoi" (Num nerr) (Cause nerr)) err).

(** *** What a base-10 integer is

    The reading of "parses as a base-10 integer" that [Atoi] is compared
    with below: an optional sign followed by one or more decimal digits,
    denoting a value that an [int] can hold. *)

Definition is_digit (c : ascii) : bool := (48 <=? byte_val c) && (byte_val c <=? 57).

Fixpoint digits_value (s : string) (acc : Z) : option Z :=
  match s with
  | EmptyString => Some acc
  | String c rest =>
      if is_digit c then digits_value rest (acc * 10 + (byte_val c - 48)) else None
  end.

Definition decimal_value (s : string) : option Z :=
  match s with
  | EmptyString => None
  | String c rest =>
      if Ascii.eqb c "+" then
        match rest with EmptyString => None | _ => digits_value rest 0 end
      else if Ascii.eqb c "-" then
        match rest with EmptyString => None | _ => Z.opp <$> digits_value rest 0 end
      else digits_value s 0
  end.

Definition fits_int (v : Z) : Prop := - 2 ^ 63 <= v <= 2 ^ 63 - 1.

(** The four ways [ParseUint(s, 10, 0)] ends: on the empty text, with
    the value of an all-digit text that fits, with a range error once
    the digits read overflow, and with a syntax error otherwise. *)
Inductive ParseUint_view (s : string) : Z * option NumError → Prop :=
| PU_empty :
    s = EmptyString → ParseUint_view s (0, Some (syntaxError "ParseUint" s))
| PU_value v :
    s ≠ EmptyString → digits_value s 0 = Some v → 0 <= v <= maxUint64 →
    ParseUint_view s (v, None)
| PU_range :
    s ≠ EmptyString → (∀ v, digits_value s 0 = Some v → maxUint64 < v) →
    ParseUint_view s (maxUint64, Some (rangeError "ParseUint" s))
| PU_syntax :
    s ≠ EmptyString → digits_value s 0 = None →
    ParseUint_view s (0, Some (syntaxError "ParseUint" s)).

End strconv.

Local Open Scope string_scope.
Local Open Scope Z_scope.

(** [strconv.Quote], used by the [Error] method of [NumError] to print
    the offending text as a double-quoted Go string literal. Its
    escaping rules for quotes, backslashes and non-printable bytes are
    outside this development, which is stated for any quoting
    function. *)
Class Quoting := Quote : string → string.

(** ** Packages errors and fmt (Go standard library) *)

Module errors.

(** The dynamic types an [error] takes in this repository:
    [*errors.errorString] (also what [fmt.Errorf] builds when its format
    has no [%w]), [*strconv.NumError] and [*fmt.wrapError], whose [err]
    field is an interface value and may be nil. *)
#[warnings="-register-all"]
Inductive error :=
| errorString (s : string)
| numError (e : strconv.NumError)
| wrapError (msg : string) (err : option error).

(** [errors.New] *)
Definition New (text : string) : error := errorString text.

(** The [Error() string] method. *)
Definition Error `{Quoting} (e : error) : string :=
  match e with
  | errorString s => s
  | numError e =>
      "strconv." +:+ strconv.Func e +:+ ": parsing " +:+ Quote (strconv.Num e)
        +:+ ": " +:+ strconv.Err_Error (strconv.Cause e)
  | wrapError msg _ => msg
  end.

(** [errors.Unwrap] *)
Definition Unwrap (e : error) : option error :=
  match e with
  | wrapError _ err => err
  | _ => None
  end.

End errors.

Module fmt.

(** [fmt.Errorf("%s" + suffix, a)] for a string operand [a]. *)
Definition Errorf_s (suffix : string) (a : string) : errors.error :=
  errors.New (a +:+ suffix).

(** [fmt.Errorf("%w" + infix + "%s", err, a)], as of Go 1.20. The one
    [%w] operand is recorded whatever it holds, so the result is a
    [*fmt.wrapError] whose [err] field is the operand: a non-nil [err] is
    printed with its [Error] method; a nil interface value is printed by
    the bad-verb rule as [%!w(<nil>)] and the error built has a nil
    cause. (Earlier releases build an [*errors.errorString] of the same
    text for a nil operand; what is proved of that case below is its
    text and that it unwraps to nil, which hold either way.) *)
Definition Errorf_w_s `{Quoting} (infix : string) (err : option errors.error) (a : string)
  : errors.error :=
  let printed :=
    match err with
    | Some e => errors.Error e
    | None => "%!w(<nil>)"
    end in
  errors.wrapError (printed +:+ infix +:+ a) err.

End fmt.

(** ** Package os: the process environment *)

Module os.

(** [os.Getenv]: the value of the variable, empty when it is unset. *)
Definition Getenv (key : string) (environ : gmap string string) : string :=
  default "" (environ !! key).

End os.

(** ** Package types of rosetta-sdk-go *)

Module types.

(** [SubNetworkIdentifier]; its [Metadata] map is never built by this
    repository and is left out. *)
Record SubNetworkIdentifier := mkSubNetworkIdentifier { SubNetwork : string }.

Record NetworkIdentifier := mkNetworkIdentifier {
  Blockchain : string;
  Network : string;
  SubNetworkIdentifier_ : option SubNetworkIdentifier
}.

Record BlockIdentifier := mkBlockIdentifier { Index : Z; Hash : string }.

End types.

(** ** Package params of go-quai *)

Module params.

(** The chain configurations the loader selects from. They are opaque
    to this repository: the loader only passes the pointers on. *)
Class Configs := {
  ChainConfig : Type;
  ProgpowColosseumChainConfig : ChainConfig;
  ProgpowOrchardChainConfig : ChainConfig;
  ProgpowLocalChainConfig : ChainConfig
}.

End params.

(** ** Package common of go-quai *)

Module common.

(** Addresses and their parser. go-quai is outside this repository:
    [ChecksumAddress] is stated for any parser of this signature.
    [Address_zero] is the zero value [common.Address{}]. *)
Class Addresses := {
  Location : Type;
  Address : Type;
  Address_zero : Address;
  MixedcaseAddress : Type;
  NewMixedcaseAddressFromString :
    string → Location → option MixedcaseAddress * option errors.error;
  MixedcaseAddress_Address : MixedcaseAddress → Address
}.

End common.

(** ** Control flow *)

(** How a call ends: it returns, it ends the process ([log.Fatalf] logs
    its message and calls [os.Exit(1)]), or it panics (a method that
    reads its receiver called on a nil pointer). *)
Inductive outcome (A : Type) :=
| Returns (a : A)
| Exits (code : Z) (logged : string)
| Panics.
Arguments Returns {A} a.
Arguments Exits {A} code logged.
Arguments Panics {A}.

(** A statement of a function body that reads the process environment:
    it either falls through to the next statement with a value or
    executes [return r]. *)
Inductive flow (R A : Type) :=
| Next (a : A)
| Return (r : R).
Arguments Next {R A} a.
Arguments Return {R A} r.

Definition proc (R A : Type) : Type := gmap string string → flow R A * gmap string string.

#[global] Instance proc_ret {R} : MRet (proc R) := λ A a environ, (Next a, environ).

#[global] Instance proc_bind {R} : MBind (proc R) := λ A B f m environ,
  match m environ with
  | (Next a, environ') => f a environ'
  | (Return r, environ') => (Return r, environ')
  end.

Definition return_ {R A} (r : R) : proc R A := λ environ, (Return r, environ).

Definition Getenv {R} (key : string) : proc R string :=
  λ environ, (Next (os.Getenv key environ), environ).

(** Running a body every path of which ends in a [return]. *)
Definition call {R} (body : proc R Empty_set) (environ : gmap string string)
  : R * gmap string string :=
  match body environ with
  | (Return r, environ') => (r, environ')
  | (Next a, _) => match a with end
  end.

(** ** Package ethereum *)

Module ethereum.

(** The constants of package [ethereum] the loader refers to. Their
    declarations are not among the sources under study.

    Modelled from the spec: the genesis block identifiers of MAINNET and
    ORCHARD are "a fixed production genesis identifier" and "a fixed
    test-network genesis identifier", that is, pointers that are not
    nil; they are values here and the loader stores [Some] of them. *)
Class Constants := {
  Blockchain : string;
  MainnetNetwork : string;
  OrchardNetwork : string;
  DevNetwork : string;
  MainnetGenesisBlockIdentifier : types.BlockIdentifier;
  OrchardGenesisBlockIdentifier : types.BlockIdentifier;
  MainnetGoQuaiArguments : string;
  OrchardGoQuaiArguments : string;
  LocalGoQuaiArguments : string
}.

Section Checksum.
Context `{common.Addresses}.

(** [func ChecksumAddress(address string, location common.Location)
    (common.Address, bool)] *)
Definition ChecksumAddress (address : string) (location : common.Location)
  : outcome (common.Address * bool) :=
  let '(addr, err) := common.NewMixedcaseAddressFromString address location in
  match err with
  | Some _ => Returns (common.Address_zero, false)
  | None =>
      match addr with
      | Some addr => Returns (common.MixedcaseAddress_Address addr, true)
      | None => Panics
      end
  end.

(** [func MustChecksum(address string, location common.Location)
    common.Address] *)
Definition MustChecksum (address : string) (location : common.Location)
  : outcome common.Address :=
  match ChecksumAddress address location with
  | Returns (addr, ok) =>
      if negb ok then Exits 1 ("invalid address " +:+ address)
      else Returns addr
  | Exits code logged => Exits code logged
  | Panics => Panics
  end.

End Checksum.

End ethereum.

(** ** Package configuration *)

Module configuration.

(** [type Mode string] *)
Definition Mode : Type := string.

Definition Online : Mode := "ONLINE".
Definition Offline : Mode := "OFFLINE".
Definition Mainnet : string := "MAINNET".
Definition Orchard : string := "ORCHARD".
Definition Local : string := "LOCAL".
Definition ModeEnv : string := "MODE".
Definition NetworkEnv : string := "NETWORK".
Definition PortEnv : string := "PORT".
Definition GoQuaiEnv : string := "GOQUAI".
Definition DefaultGoQuaiURL : string := "http://localhost:8545".
Definition SkipGoQuaiAdminEnv : string := "SKIP_GO_QUAI_ADMIN".

Section Loader.
Context `{Quoting, params.Configs, ethereum.Constants}.

Record Configuration := mkConfiguration {
  Mode_ : Mode;
  Network : option types.NetworkIdentifier;
  GenesisBlockIdentifier : option types.BlockIdentifier;
  GoQuaiURL : string;
  RemoteGoQuai : bool;
  Port : Z;
  GoQuaiArguments : string;
  SkipGoQuaiAdmin : bool;
  Params : option params.ChainConfig
}.

(** [&Configuration{}]: every field at its zero value. *)
Definition Configuration_zero : Configuration :=
  mkConfiguration "" None None "" false 0 "" false None.

(** Field assignments [config.F = v]. *)
Definition set_Mode (v : Mode) (c : Configuration) : Configuration :=
  mkConfiguration v (Network c) (GenesisBlockIdentifier c) (GoQuaiURL c)
    (RemoteGoQuai c) (Port c) (GoQuaiArguments c) (SkipGoQuaiAdmin c) (Params c).
Definition set_Network (v : option types.NetworkIdentifier) (c : Configuration) :=
  mkConfiguration (Mode_ c) v (GenesisBlockIdentifier c) (GoQuaiURL c)
    (RemoteGoQuai c) (Port c) (GoQuaiArguments c) (SkipGoQuaiAdmin c) (Params c).
Definition set_GenesisBlockIdentifier (v : option types.BlockIdentifier) (c : Configuration) :=
  mkConfiguration (Mode_ c) (Network c) v (GoQuaiURL c)
    (RemoteGoQuai c) (Port c) (GoQuaiArguments c) (SkipGoQuaiAdmin c) (Params c).
Definition set_GoQuaiURL (v : string) (c : Configuration) :=
  mkConfiguration (Mode_ c) (Network c) (GenesisBlockIdentifier c) v
    (RemoteGoQuai c) (Port c) (GoQuaiArguments c) (SkipGoQuaiAdmin c) (Params c).
Definition set_RemoteGoQuai (v : bool) (c : Configuration) :=
  mkConfiguration (Mode_ c) (Network c) (GenesisBlockIdentifier c) (GoQuaiURL c)
    v (Port c) (GoQuaiArguments c) (SkipGoQuaiAdmin c) (Params c).
Definition set_Port (v : Z) (c : Configuration) :=
  mkConfiguration (Mode_ c) (Network c) (GenesisBlockIdentifier c) (GoQuaiURL c)
    (RemoteGoQuai c) v (GoQuaiArguments c) (SkipGoQuaiAdmin c) (Params c).
Definition set_GoQuaiArguments (v : string) (c : Configuration) :=
  mkConfiguration (Mode_ c) (Network c) (GenesisBlockIdentifier c) (GoQuaiURL c)
    (RemoteGoQuai c) (Port c) v (SkipGoQuaiAdmin c) (Params c).
Definition set_SkipGoQuaiAdmin (v : bool) (c : Configuration) :=
  mkConfiguration (Mode_ c) (Network c) (GenesisBlockIdentifier c) (GoQuaiURL c)
    (RemoteGoQuai c) (Port c) (GoQuaiArguments c) v (Params c).
Definition set_Params (v : option params.ChainConfig) (c : Configuration) :=
  mkConfiguration (Mode_ c) (Network c) (GenesisBlockIdentifier c) (GoQuaiURL c)
    (RemoteGoQuai c) (Port c) (GoQuaiArguments c) (SkipGoQuaiAdmin c) v.

(** What [LoadConfiguration] returns: a [*Configuration] and an [error]. *)
Definition result : Type := option Configuration * option errors.error.

(** The body of [LoadConfiguration], statement by statement. *)
Definition LoadConfiguration_body : proc result Empty_set :=
  let config := Configuration_zero in

  modeValue ← Getenv ModeEnv;
  config ←
    (if String.eqb modeValue Online then mret (set_Mode Online config)
     else if String.eqb modeValue Offline then mret (set_Mode Offline config)
     else if String.eqb modeValue "" then
       return_ (None, Some (errors.New "MODE must be populated"))
     else return_ (None, Some (fmt.Errorf_s " is not a valid mode" modeValue)));

  networkValue ← Getenv NetworkEnv;
  config ←
    (if String.eqb networkValue Mainnet then
       let config := set_Network (Some (types.mkNetworkIdentifier
                       ethereum.Blockchain ethereum.MainnetNetwork None)) config in
       let config := set_GenesisBlockIdentifier
                       (Some ethereum.MainnetGenesisBlockIdentifier) config in
       let config := set_Params (Some params.ProgpowColosseumChainConfig) config in
       mret (set_GoQuaiArguments ethereum.MainnetGoQuaiArguments config)
     else if String.eqb networkValue Orchard then
       let config := set_Network (Some (types.mkNetworkIdentifier
                       ethereum.Blockchain ethereum.OrchardNetwork None)) config in
       let config := set_GenesisBlockIdentifier
                       (Some ethereum.OrchardGenesisBlockIdentifier) config in
       let config := set_Params (Some params.ProgpowOrchardChainConfig) config in
       mret (set_GoQuaiArguments ethereum.OrchardGoQuaiArguments config)
     else if String.eqb networkValue Local then
       let config := set_Network (Some (types.mkNetworkIdentifier
                       ethereum.Blockchain ethereum.DevNetwork None)) config in
       let config := set_GenesisBlockIdentifier None config in
       let config := set_Params (Some params.ProgpowLocalChainConfig) config in
       mret (set_GoQuaiArguments ethereum.LocalGoQuaiArguments config)
     else if String.eqb networkValue "" then
       return_ (None, Some (errors.New "NETWORK must be populated"))
     else return_ (None, Some (fmt.Errorf_s " is not a valid network" networkValue)));

  let config := set_GoQuaiURL DefaultGoQuaiURL config in
  envGethURL ← Getenv GoQuaiEnv;
  let config :=
    if 0 <? len envGethURL then
      set_GoQuaiURL envGethURL (set_RemoteGoQuai true config)
    else config in

  let config := set_SkipGoQuaiAdmin false config in
  envSkipGethAdmin ← Getenv SkipGoQuaiAdminEnv;
  config ←
    (if 0 <? len envSkipGethAdmin then
       let '(val, err) := strconv.ParseBool envSkipGethAdmin in
       match err with
       | Some e =>
           return_ (None, Some (fmt.Errorf_w_s ": unable to parse SKIP_GO_QUAI_ADMIN "
                                  (Some (errors.numError e)) envSkipGethAdmin))
       | None => mret (set_SkipGoQuaiAdmin val config)
       end
     else mret config);

  portValue ← Getenv PortEnv;
  if Z.eqb (len portValue) 0 then
    return_ (None, Some (errors.New "PORT must be populated"))
  else

  let '(port, err) := strconv.Atoi portValue in
  if not_nil err || Z.eqb (len portValue) 0 || (port <=? 0) then
    return_ (None, Some (fmt.Errorf_w_s ": unable to parse port "
                           (errors.numError <$> err) portValue))
  else
  let config := set_Port port config in

  return_ (Some config, None).

(** [func LoadConfiguration()], run on the process environment. *)
Definition LoadConfiguration (environ : gmap string string)
  : result * gmap string string :=
  call LoadConfiguration_body environ.

End Loader.

End configuration.

(** ** The specification's vocabulary

    Definitions that follow the words of the specification (the
    known-network table, the order of validation, what each field
    accepts), to be compared with the loader above. *)

Module spec.

(** [sub] occurs in [s]. *)
Definition contains (sub s : string) : Prop :=
  ∃ before after : string, s = before +:+ sub +:+ after.



(** "Parses as a base-10 integer": [s] is the decimal text of [v], and
    [v] is an [int]. *)
Definition parses_as (s : string) (v : Z) : Prop :=
  strconv.decimal_value s = Some v ∧ strconv.fits_int v.

(** The twelve boolean tokens and the value each denotes. *)
Definition true_tokens : list string := ["1"; "t"; "T"; "true"; "TRUE"; "True"].
Definition false_tokens : list string := ["0"; "f"; "F"; "false"; "FALSE"; "False"].

Section Table.
Context `{Quoting, params.Configs, ethereum.Constants}.

(** An entry of the known-network table. *)
Record NetworkEntry := mkNetworkEntry {
  networkName : string;
  chainParameters : params.ChainConfig;
  genesisBlockIdentifier : option types.BlockIdentifier;
  nodeLaunchArguments : string
}.

(** The known-network table, keyed by the exact literal network name. *)
Definition networkTable (name : string) : option NetworkEntry :=
  if decide (name = "MAINNET") then
    Some (mkNetworkEntry ethereum.MainnetNetwork params.ProgpowColosseumChainConfig
            (Some ethereum.MainnetGenesisBlockIdentifier)
            ethereum.MainnetGoQuaiArguments)
  else if decide (name = "ORCHARD") then
    Some (mkNetworkEntry ethereum.OrchardNetwork params.ProgpowOrchardChainConfig
            (Some ethereum.OrchardGenesisBlockIdentifier)
            ethereum.OrchardGoQuaiArguments)
  else if decide (name = "LOCAL") then
    Some (mkNetworkEntry ethereum.DevNetwork params.ProgpowLocalChainConfig
            None ethereum.LocalGoQuaiArguments)
  else None.

(** The error of each field taken alone, with the texts the loader
    gives them. The order of validation is mode, network, node-URL
    override, admin-skip flag, port. *)
Definition mode_error (v : string) : option errors.error :=
  if decide (v = "ONLINE" ∨ v = "OFFLINE") then None
  else if decide (v = "") then Some (errors.New "MODE must be populated")
  else Some (errors.New (v +:+ " is not a valid mode")).

Definition network_error (v : string) : option errors.error :=
  if decide (v = "MAINNET" ∨ v = "ORCHARD" ∨ v = "LOCAL") then None
  else if decide (v = "") then Some (errors.New "NETWORK must be populated")
  else Some (errors.New (v +:+ " is not a valid network")).

Definition nodeURL_error (v : string) : option errors.error := None.

Definition skipAdmin_error (v : string) : option errors.error :=
  if decide (v = "" ∨ v ∈ true_tokens ∨ v ∈ false_tokens) then None
  else
    let cause := errors.numError (strconv.syntaxError "ParseBool" v) in
    Some (errors.wrapError
            (errors.Error cause +:+ ": unable to parse SKIP_GO_QUAI_ADMIN " +:+ v)
            (Some cause)).

Definition port_error (v : string) : option errors.error :=
  if decide (v = "") then Some (errors.New "PORT must be populated")
  else
    match strconv.Atoi v with
    | (_, Some e) =>
        Some (errors.wrapError
                (errors.Error (errors.numError e) +:+ ": unable to parse port " +:+ v)
                (Some (errors.numError e)))
    | (port, None) =>
        if decide (port ≤ 0) then
          Some (errors.wrapError ("%!w(<nil>): unable to parse port " +:+ v) None)
        else None
    end.

(** The first error of a list of checks. *)
Fixpoint first_error (checks : list (option errors.error)) : option errors.error :=
  match checks with
  | [] => None
  | Some e :: _ => Some e
  | None :: rest => first_error rest
  end.

Definition field_errors (environ : gmap string string) : list (option errors.error) :=
  [ mode_error (os.Getenv "MODE" environ);
    network_error (os.Getenv "NETWORK" environ);
    nodeURL_error (os.Getenv "GOQUAI" environ);
    skipAdmin_error (os.Getenv "SKIP_GO_QUAI_ADMIN" environ);
    port_error (os.Getenv "PORT" environ) ].

(** The record the specification describes for an environment
    whose fields are all valid: the mode as given, the network's
    entry of the table, the node URL and [remoteNode] from the
    override, the admin-skip flag and the port. *)
Definition configuration_of (environ : gmap string string)
  : option configuration.Configuration :=
  entry ← networkTable (os.Getenv "NETWORK" environ);
  let override := os.Getenv "GOQUAI" environ in
  Some (configuration.mkConfiguration
          (os.Getenv "MODE" environ)
          (Some (types.mkNetworkIdentifier ethereum.Blockchain (networkName entry) None))
          (genesisBlockIdentifier entry)
          (if decide (override = "") then "http://localhost:8545" else override)
          (bool_decide (override ≠ ""))
          (fst (strconv.Atoi (os.Getenv "PORT" environ)))
          (nodeLaunchArguments entry)
          (bool_decide (os.Getenv "SKIP_GO_QUAI_ADMIN" environ ∈ true_tokens))
          (Some (chainParameters entry))).

(** Loading as the specification describes it: the first error in
    the order of validation and no configuration, or the
    configuration and no error. *)
Definition load (environ : gmap string string) : configuration.result :=
  match first_error (field_errors environ) with
  | Some e => (None, Some e)
  | None => (configuration_of environ, None)
  end.

End Table.

End spec.

(** ** Decimal writing

    The decimal text of a natural number, least significant digit
    first into an accumulator, as the inverse that [strconv.Atoi] is
    compared with. [fuel] bounds the number of digits written. *)

Module decimal.

Definition digit_char (d : Z) : ascii := ascii_of_N (Z.to_N (48 + d)).

Fixpoint digits (fuel : nat) (v : Z) (acc : string) : string :=
  match fuel with
  | O => acc
  | S fuel =>
      let acc := String (digit_char (v mod 10)) acc in
      if Z.eqb (v / 10) 0 then acc else digits fuel (v / 10) acc
  end.

(** The text of [0 <= v < 10 ^ 20], which covers every [int]. *)
Definition text (v : Z) : string := digits 20 v "".

Definition starts_with_digit (s : string) : Prop :=
  match s with
  | EmptyString => False
  | String c _ => strconv.is_digit c = true
  end.

End decimal.

(** ** A sample instantiation

    Concrete stand-ins for what lies outside this repository, used to run
    the functions above on concrete inputs. No result below depends on
    the values chosen here. *)

Module sample.

(** Quoting without escapes: the text between two double quotes. *)
Definition Quote : Quoting :=
  λ s, String (ascii_of_nat 34) (s +:+ String (ascii_of_nat 34) "").

Definition Configs : params.Configs :=
  {| params.ChainConfig := string;
     params.ProgpowColosseumChainConfig := "colosseum";
     params.ProgpowOrchardChainConfig := "orchard";
     params.ProgpowLocalChainConfig := "local" |}.

Definition Constants : ethereum.Constants :=
  {| ethereum.Blockchain := "Quai";
     ethereum.MainnetNetwork := "Mainnet";
     ethereum.OrchardNetwork := "Orchard";
     ethereum.DevNetwork := "Dev";
     ethereum.MainnetGenesisBlockIdentifier := types.mkBlockIdentifier 0 "0x01";
     ethereum.OrchardGenesisBlockIdentifier := types.mkBlockIdentifier 0 "0x02";
     ethereum.MainnetGoQuaiArguments := "--colosseum";
     ethereum.OrchardGoQuaiArguments := "--orchard";
     ethereum.LocalGoQuaiArguments := "--local" |}.

(** A parser that accepts exactly the texts of 42 bytes. *)
Definition Addresses : common.Addresses :=
  {| common.Location := list Z;
     common.Address := string;
     common.Address_zero := "";
     common.MixedcaseAddress := string;
     common.NewMixedcaseAddressFromString := λ hexaddr _,
       if Z.eqb (len hexaddr) 42 then (Some hexaddr, None)
       else (None, Some (errors.New "invalid address"));
     common.MixedcaseAddress_Address := λ ma, ma |}.

(** [LoadConfiguration] at the sample constants. *)
Definition LoadConfiguration :=
  @configuration.LoadConfiguration Quote Configs Constants.

Definition env_mainnet : gmap string string :=
  <["MODE" := "ONLINE"]> (<["NETWORK" := "MAINNET"]> (<["PORT" := "1000"]> ∅)).

End sample.

(** * Properties *)

(** ** strconv: what [Atoi] accepts *)

Section AtoiFacts.
Import strconv.

Lemma byte_val_range (c : ascii) : 0 <= byte_val c < 256.
Proof.
  unfold byte_val. pose proof (N_ascii_bounded c). lia.
Qed.

Lemma len_nonneg (s : string) : 0 <= len s.
Proof. unfold len. lia. Qed.

Lemma len_cons (c : ascii) (s : string) : len (String c s) = len s + 1.
Proof. unfold len. cbn [String.length]. lia. Qed.

Lemma len_zero (s : string) : len s = 0 ↔ s = "".
Proof.
  destruct s as [| c s]; [easy |]. rewrite len_cons.
  pose proof (len_nonneg s). split; [lia | discriminate].
Qed.

Lemma wrap_int64_small (z : Z) : - 2 ^ 63 <= z < 2 ^ 63 → wrap_int64 z = z.
Proof.
  intros Hz. unfold wrap_int64. rewrite Z.mod_small; lia.
Qed.

Lemma wrap_uint64_small (z : Z) : 0 <= z < 2 ^ 64 → wrap_uint64 z = z.
Proof.
  intros Hz. unfold wrap_uint64. now rewrite Z.mod_small.
Qed.

Lemma is_digit_val (c : ascii) :
  is_digit c = true → 0 <= byte_val c - 48 <= 9.
Proof.
  unfold is_digit. intros Hd. apply andb_true_iff in Hd as [H1 H2]. lia.
Qed.

(** The byte test of the fast path agrees with [is_digit]. *)
Lemma fast_digit_test (c : ascii) :
  (9 <? wrap_byte (byte_val c - 48)) = negb (is_digit c).
Proof.
  pose proof (byte_val_range c) as Hb. unfold wrap_byte, is_digit.
  destruct (Z_lt_le_dec (byte_val c) 48) as [Hlt | Hge].
  - replace ((byte_val c - 48) mod 256) with (byte_val c + 208).
    + replace (48 <=? byte_val c) with false by lia. simpl. lia.
    + apply Z.mod_unique with (q := -1); lia.
  - rewrite Z.mod_small by lia.
    replace (48 <=? byte_val c) with true by lia. simpl.
    destruct (Z.leb_spec (byte_val c) 57); lia.
Qed.

(** The digit switch of [ParseUint] agrees with [is_digit]: a decimal
    digit has its value, any other byte has none or one of 10 or more. *)
Lemma digit_of_digit (c : ascii) :
  is_digit c = true → digit_of c = Some (byte_val c - 48).
Proof.
  unfold is_digit, digit_of. intros ->. reflexivity.
Qed.

Lemma digit_of_other (c : ascii) :
  is_digit c = false →
  match digit_of c with Some d => 10 <= d | None => True end.
Proof.
  unfold is_digit, digit_of. intros ->.
  destruct (_ && _) eqn:Hl; [| exact I].
  apply andb_true_iff in Hl as [H1 H2]. unfold wrap_byte.
  rewrite Z.mod_small; lia.
Qed.

Lemma digits_value_ge (s : string) : ∀ n v,
  0 <= n → digits_value s n = Some v → n <= v.
Proof.
  induction s as [| c s IH]; simpl; intros n v Hn Hv.
  - injection Hv as <-. lia.
  - destruct (is_digit c) eqn:Hd; [| discriminate].
    pose proof (is_digit_val c Hd). apply IH in Hv; lia.
Qed.

Lemma digits_value_lt (s : string) : ∀ n v,
  0 <= n → digits_value s n = Some v → v < (n + 1) * 10 ^ len s.
Proof.
  unfold len. induction s as [| c s IH]; intros n v Hn Hv; simpl in Hv.
  - injection Hv as <-. simpl. lia.
  - destruct (is_digit c) eqn:Hd; [| discriminate].
    pose proof (is_digit_val c Hd) as Hc. apply IH in Hv; [| lia].
    cbn [String.length]. rewrite Nat2Z.inj_succ, Z.pow_succ_r by lia.
    assert (0 < 10 ^ Z.of_nat (String.length s)) by (apply Z.pow_pos_nonneg; lia).
    nia.
Qed.

Lemma maxUint64_eq : maxUint64 = 18446744073709551615.
Proof. reflexivity. Qed.

Lemma maxVal_eq : wrap_uint64 (wrap_uint64 (Z.shiftl 1 IntSize) - 1) = maxUint64.
Proof. reflexivity. Qed.

(** One round of the loop of [ParseUint] on a decimal digit. *)
Lemma ParseUint_loop_digit (s0 : string) (c : ascii) (rest : string) (n : Z) :
  is_digit c = true → 0 <= n <= maxUint64 →
  ParseUint_loop s0 (String c rest) n =
    if n * 10 + (byte_val c - 48) <=? maxUint64 then
      ParseUint_loop s0 rest (n * 10 + (byte_val c - 48))
    else (maxUint64, Some (rangeError "ParseUint" s0)).
Proof.
  intros Hd Hn. pose proof (is_digit_val c Hd) as Hc.
  cbn [ParseUint_loop]. rewrite (digit_of_digit c Hd). cbv zeta.
  rewrite maxVal_eq. rewrite maxUint64_eq in *.
  replace (10 <=? byte_val c - 48) with false by lia.
  change (18446744073709551615 / 10 + 1) with 1844674407370955162.
  destruct (Z.leb_spec 1844674407370955162 n) as [Hcut | Hcut].
  - replace (n * 10 + (byte_val c - 48) <=? 18446744073709551615) with false by lia.
    reflexivity.
  - rewrite (wrap_uint64_small (n * 10)) by lia.
    destruct (Z.leb_spec (n * 10 + (byte_val c - 48)) 18446744073709551615) as [Hfit | Hov].
    + rewrite wrap_uint64_small by lia.
      replace (n * 10 + (byte_val c - 48) <? n * 10) with false by lia.
      replace (18446744073709551615 <? n * 10 + (byte_val c - 48)) with false by lia.
      reflexivity.
    + assert (Hw : wrap_uint64 (n * 10 + (byte_val c - 48))
                   = n * 10 + (byte_val c - 48) - 2 ^ 64).
      { unfold wrap_uint64. symmetry. apply Z.mod_unique with (q := 1); lia. }
      rewrite Hw.
      replace (n * 10 + (byte_val c - 48) - 2 ^ 64 <? n * 10) with true by lia.
      reflexivity.
Qed.

Lemma ParseUint_loop_ok (s0 s : string) : ∀ n v,
  0 <= n → digits_value s n = Some v → v <= maxUint64 →
  ParseUint_loop s0 s n = (v, None).
Proof.
  induction s as [| c s IH]; intros n v Hn Hv Hmax.
  - simpl in *. congruence.
  - simpl in Hv. destruct (is_digit c) eqn:Hd; [| discriminate].
    pose proof (is_digit_val c Hd) as Hc.
    pose proof (digits_value_ge s (n * 10 + (byte_val c - 48)) v ltac:(lia) Hv) as Hge.
    rewrite ParseUint_loop_digit by (auto; lia).
    replace (_ <=? maxUint64) with true by lia.
    apply IH; auto; lia.
Qed.

Lemma ParseUint_loop_range (s0 s : string) : ∀ n v,
  0 <= n <= maxUint64 → digits_value s n = Some v → maxUint64 < v →
  ParseUint_loop s0 s n = (maxUint64, Some (rangeError "ParseUint" s0)).
Proof.
  induction s as [| c s IH]; intros n v Hn Hv Hmax.
  - simpl in Hv. injection Hv as <-. lia.
  - simpl in Hv. destruct (is_digit c) eqn:Hd; [| discriminate].
    pose proof (is_digit_val c Hd) as Hc.
    rewrite ParseUint_loop_digit by auto.
    destruct (Z.leb_spec (n * 10 + (byte_val c - 48)) maxUint64); [| reflexivity].
    apply (IH _ v); auto; lia.
Qed.

(** On a text that is not all digits the loop fails: with a syntax
    error, or with a range error when the digits before the offending
    byte already overflow. *)
Lemma ParseUint_loop_bad (s0 s : string) : ∀ n,
  0 <= n <= maxUint64 → digits_value s n = None →
  ParseUint_loop s0 s n = (0, Some (syntaxError "ParseUint" s0)) ∨
  ParseUint_loop s0 s n = (maxUint64, Some (rangeError "ParseUint" s0)).
Proof.
  induction s as [| c s IH]; intros n Hn Hv.
  - discriminate.
  - simpl in Hv. destruct (is_digit c) eqn:Hd.
    + pose proof (is_digit_val c Hd) as Hc.
      rewrite ParseUint_loop_digit by auto.
      destruct (Z.leb_spec (n * 10 + (byte_val c - 48)) maxUint64); [| now right].
      apply IH; auto; lia.
    + left. cbn [ParseUint_loop]. pose proof (digit_of_other c Hd) as Ho.
      destruct (digit_of c) as [d |]; [| reflexivity].
      cbv zeta. replace (10 <=? d) with true by lia. reflexivity.
Qed.

Lemma Atoi_loop_ok (s0 s : string) : ∀ n v,
  0 <= n → digits_value s n = Some v → v < 2 ^ 63 →
  Atoi_loop s0 s n = (v, None).
Proof.
  induction s as [| c s IH]; intros n v Hn Hv Hmax; simpl in Hv.
  - simpl. congruence.
  - destruct (is_digit c) eqn:Hd; [| discriminate].
    pose proof (is_digit_val c Hd) as Hc.
    pose proof (digits_value_ge s (n * 10 + (byte_val c - 48)) v ltac:(lia) Hv) as Hge.
    cbn [Atoi_loop]. cbv zeta. rewrite fast_digit_test, Hd. cbn [negb].
    unfold wrap_byte at 1. rewrite Z.mod_small by lia.
    rewrite wrap_int64_small by lia. apply IH; auto; lia.
Qed.

Lemma Atoi_loop_bad (s0 s : string) : ∀ n n',
  digits_value s n = None →
  Atoi_loop s0 s n' = (0, Some (syntaxError "Atoi" s0)).
Proof.
  induction s as [| c s IH]; intros n n' Hv; simpl in Hv.
  - discriminate.
  - cbn [Atoi_loop]. cbv zeta. rewrite fast_digit_test.
    destruct (is_digit c); cbn [negb]; [| reflexivity].
    eapply IH, Hv.
Qed.

Lemma ParseUint_cases (s : string) : ParseUint_view s (ParseUint s).
Proof.
  unfold ParseUint. destruct (String.eqb_spec s "") as [-> | Hne].
  - now constructor.
  - destruct (digits_value s 0) as [v |] eqn:Hv.
    + pose proof (digits_value_ge s 0 v ltac:(lia) Hv) as Hge.
      destruct (Z_le_gt_dec v maxUint64) as [Hle | Hgt].
      * rewrite (ParseUint_loop_ok s s 0 v) by (auto; lia).
        apply PU_value; auto.
      * rewrite (ParseUint_loop_range s s 0 v); auto; try lia.
        -- apply PU_range; auto. intros v' Hv'. assert (v' = v) by congruence. lia.
        -- rewrite maxUint64_eq. lia.
    + destruct (ParseUint_loop_bad s s 0) as [-> | ->]; auto.
      * rewrite maxUint64_eq. lia.
      * now apply PU_syntax.
      * apply PU_range; auto. congruence.
Qed.

(** [ParseInt] after the sign: it returns the signed value of an
    all-digit text when that value is an [int], and fails otherwise. *)
Lemma ParseInt_unsigned_spec (s0 u : string) (neg : bool) :
  let signed (v : Z) := if neg then - v else v in
  match (if String.eqb u "" then None else digits_value u 0) with
  | Some v =>
      if decide (fits_int (signed v)) then ParseInt_unsigned s0 neg u = (signed v, None)
      else ∃ i c, ParseInt_unsigned s0 neg u = (i, Some (mkNumError "ParseInt" s0 c))
  | None => ∃ i c, ParseInt_unsigned s0 neg u = (i, Some (mkNumError "ParseInt" s0 c))
  end.
Proof.
  cbv zeta. unfold ParseInt_unsigned.
  change (wrap_uint64 (Z.shiftl 1 (IntSize - 1))) with 9223372036854775808.
  destruct (ParseUint_cases u) as [-> | v Hne Hv Hrange | Hne Hover | Hne Hv].
  - simpl. eauto.
  - apply String.eqb_neq in Hne. rewrite Hne, Hv. rewrite maxUint64_eq in Hrange.
    unfold fits_int. destruct neg; cbn [negb andb].
    + destruct (Z.ltb_spec 9223372036854775808 v) as [Hbig | Hsmall].
      * rewrite decide_False by lia. unfold rangeError. eauto.
      * rewrite decide_True by lia. f_equal.
        destruct (Z.eq_dec v 9223372036854775808) as [-> | Hlt]; [reflexivity |].
        rewrite (wrap_int64_small v) by lia. apply wrap_int64_small. lia.
    + destruct (Z.leb_spec 9223372036854775808 v) as [Hbig | Hsmall].
      * rewrite decide_False by lia. unfold rangeError. eauto.
      * rewrite decide_True by lia. f_equal. apply wrap_int64_small. lia.
  - apply String.eqb_neq in Hne. rewrite Hne. cbn [rangeError].
    assert (Hres : ∃ i c,
               (if negb neg && (9223372036854775808 <=? maxUint64)
                then (wrap_int64 (9223372036854775808 - 1), Some (rangeError "ParseInt" s0))
                else if neg && (9223372036854775808 <? maxUint64)
                     then (wrap_int64 (- wrap_int64 9223372036854775808),
                           Some (rangeError "ParseInt" s0))
                     else (if neg then wrap_int64 (- wrap_int64 maxUint64)
                           else wrap_int64 maxUint64, None))
               = (i, Some (mkNumError "ParseInt" s0 c))).
    { destruct neg; simpl; unfold rangeError; eauto. }
    destruct (digits_value u 0) as [v |] eqn:Hv; [| exact Hres].
    specialize (Hover v eq_refl). rewrite maxUint64_eq in Hover.
    rewrite decide_False; [exact Hres |]. unfold fits_int. destruct neg; lia.
  - apply String.eqb_neq in Hne. rewrite Hne, Hv. simpl. eauto.
Qed.

Lemma ParseInt_spec (s : string) :
  match decimal_value s with
  | Some v =>
      if decide (fits_int v) then ParseInt s = (v, None)
      else ∃ i c, ParseInt s = (i, Some (mkNumError "ParseInt" s c))
  | None => ∃ i c, ParseInt s = (i, Some (mkNumError "ParseInt" s c))
  end.
Proof.
  destruct s as [| c rest]; [simpl; unfold syntaxError; eauto |].
  unfold decimal_value, ParseInt.
  destruct (Ascii.eqb c "+"); [| destruct (Ascii.eqb c "-")].
  - pose proof (ParseInt_unsigned_spec (String c rest) rest false) as Hs.
    destruct rest; exact Hs.
  - pose proof (ParseInt_unsigned_spec (String c rest) rest true) as Hs.
    cbv zeta in Hs. destruct rest as [| c' rest]; [exact Hs |].
    change (String.eqb (String c' rest) "") with false in Hs. cbv iota in Hs.
    destruct (digits_value (String c' rest) 0); exact Hs.
  - exact (ParseInt_unsigned_spec (String c rest) (String c rest) false).
Qed.

Lemma fast_path_fits (s : string) (v : Z) :
  len s < 19 → digits_value s 0 = Some v → 0 <= v < 2 ^ 63.
Proof.
  intros Hlen Hv. pose proof (digits_value_ge s 0 v ltac:(lia) Hv).
  pose proof (digits_value_lt s 0 v ltac:(lia) Hv) as Hlt.
  assert (10 ^ len s <= 10 ^ 18) by (apply Z.pow_le_mono_r; unfold len in *; lia).
  change (10 ^ 18) with 1000000000000000000 in *.
  change (2 ^ 63) with 9223372036854775808. lia.
Qed.

(** [Atoi] returns the value of the texts that are the decimal writing
    of an [int], and fails on every other text with a [NumError] that
    names [Atoi] and carries the text. *)
Theorem Atoi_spec (s : string) :
  match decimal_value s with
  | Some v =>
      if decide (fits_int v) then Atoi s = (v, None)
      else ∃ i c, Atoi s = (i, Some (mkNumError "Atoi" s c))
  | None => ∃ i c, Atoi s = (i, Some (mkNumError "Atoi" s c))
  end.
Proof.
  unfold Atoi. cbv zeta.
  destruct ((0 <? len s) && (len s <? 19)) eqn:Hfast.
  - apply andb_true_iff in Hfast as [Hpos Hlen].
    apply Z.ltb_lt in Hpos, Hlen.
    destruct s as [| c rest]; [unfold len in Hpos; simpl in Hpos; lia |].
    assert (Hrest : len rest < 19) by (rewrite len_cons in Hlen; lia).
    unfold decimal_value.
    destruct (Ascii.eqb c "+") eqn:Hplus; [| destruct (Ascii.eqb c "-") eqn:Hminus].
    + apply Ascii.eqb_eq in Hplus as ->. cbn [Ascii.eqb Bool.eqb orb andb].
      destruct rest as [| c' rest]; [simpl; unfold syntaxError; eauto |].
      replace (len (String c' rest) <? 1) with false
        by (rewrite len_cons; pose proof (len_nonneg rest); lia).
      destruct (digits_value (String c' rest) 0) as [v |] eqn:Hv.
      * pose proof (fast_path_fits _ _ Hrest Hv) as Hfit.
        rewrite (Atoi_loop_ok _ _ 0 v) by (auto; lia).
        rewrite decide_True; [reflexivity |]. unfold fits_int. lia.
      * rewrite (Atoi_loop_bad _ _ 0 0 Hv). unfold syntaxError. eauto.
    + apply Ascii.eqb_eq in Hminus as ->. cbn [Ascii.eqb Bool.eqb orb andb].
      destruct rest as [| c' rest]; [simpl; unfold syntaxError; eauto |].
      replace (len (String c' rest) <? 1) with false
        by (rewrite len_cons; pose proof (len_nonneg rest); lia).
      destruct (digits_value (String c' rest) 0) as [v |] eqn:Hv.
      * pose proof (fast_path_fits _ _ Hrest Hv) as Hfit.
        rewrite (Atoi_loop_ok _ _ 0 v) by (auto; lia).
        cbn [fmap option_fmap option_map].
        rewrite decide_True by (unfold fits_int; lia).
        rewrite wrap_int64_small by lia. reflexivity.
      * rewrite (Atoi_loop_bad _ _ 0 0 Hv). unfold syntaxError. simpl. eauto.
    + cbn [orb andb].
      destruct (digits_value (String c rest) 0) as [v |] eqn:Hv.
      * pose proof (fast_path_fits _ _ Hlen Hv) as Hfit.
        rewrite (Atoi_loop_ok _ _ 0 v) by (auto; lia).
        rewrite decide_True; [reflexivity |]. unfold fits_int. lia.
      * rewrite (Atoi_loop_bad _ _ 0 0 Hv). unfold syntaxError. eauto.
  - pose proof (ParseInt_spec s) as Hs.
    destruct (decimal_value s) as [v |].
    + destruct (decide (fits_int v)).
      * rewrite Hs. reflexivity.
      * destruct Hs as (i & c & ->). simpl. eauto.
    + destruct Hs as (i & c & ->). simpl. eauto.
Qed.

Corollary Atoi_accepts (s : string) (v : Z) :
  spec.parses_as s v → Atoi s = (v, None).
Proof.
  intros [Hv Hfit]. pose proof (Atoi_spec s) as Hs. rewrite Hv in Hs.
  now rewrite decide_True in Hs.
Qed.

Corollary Atoi_rejects (s : string) :
  (∀ v, ¬ spec.parses_as s v) →
  ∃ i c, Atoi s = (i, Some (mkNumError "Atoi" s c)).
Proof.
  intros Hno. pose proof (Atoi_spec s) as Hs.
  destruct (decimal_value s) as [v |] eqn:Hv; [| exact Hs].
  destruct (decide (fits_int v)) as [Hfit | _]; [| exact Hs].
  destruct (Hno v). now split.
Qed.

Corollary Atoi_ok_inv (s : string) (v : Z) :
  Atoi s = (v, None) → spec.parses_as s v.
Proof.
  intros Hok. pose proof (Atoi_spec s) as Hs. unfold spec.parses_as.
  destruct (decimal_value s) as [v' |] eqn:Hv.
  - destruct (decide (fits_int v')) as [Hfit | _].
    + split; congruence.
    + destruct Hs as (i & c & Hs). congruence.
  - destruct Hs as (i & c & Hs). congruence.
Qed.

Lemma existsb_eqb_elem (str : string) (l : list string) :
  existsb (String.eqb str) l = bool_decide (str ∈ l).
Proof.
  induction l as [| t l IH]; [reflexivity |]. cbn [existsb]. rewrite IH.
  destruct (String.eqb_spec str t) as [-> | Hne]; cbn [orb].
  - symmetry. apply bool_decide_eq_true. left.
  - apply bool_decide_ext. rewrite elem_of_cons. tauto.
Qed.

(** [ParseBool] accepts the twelve tokens and nothing else. *)
Lemma ParseBool_spec (str : string) :
  ParseBool str =
    if decide (str ∈ spec.true_tokens) then (true, None)
    else if decide (str ∈ spec.false_tokens) then (false, None)
    else (false, Some (syntaxError "ParseBool" str)).
Proof.
  unfold ParseBool. rewrite !existsb_eqb_elem.
  fold spec.true_tokens spec.false_tokens.
  repeat case_bool_decide; repeat case_decide; tauto.
Qed.

End AtoiFacts.

(** ** The loader *)

Lemma append_assoc (a b c : string) : (a +:+ b) +:+ c = a +:+ b +:+ c.
Proof.
  induction a as [| x a IH]; [reflexivity |].
  change (String x ((a +:+ b) +:+ c) = String x (a +:+ b +:+ c)). now rewrite IH.
Qed.

Lemma append_nil_r (a : string) : a +:+ "" = a.
Proof.
  induction a as [| x a IH]; [reflexivity |].
  change (String x (a +:+ "") = String x a). now rewrite IH.
Qed.

Lemma contains_prefix (sub rest : string) : spec.contains sub (sub +:+ rest).
Proof. exists "", rest. reflexivity. Qed.

Lemma contains_refl (s : string) : spec.contains s s.
Proof. exists "", "". cbn. now rewrite append_nil_r. Qed.

Lemma contains_app_r (sub before s : string) :
  spec.contains sub s → spec.contains sub (before +:+ s).
Proof.
  intros (b & a & ->). exists (before +:+ b), a. now rewrite append_assoc.
Qed.

Lemma Getenv_insert_ne (key key' value : string) (environ : gmap string string) :
  key' ≠ key → os.Getenv key (<[key' := value]> environ) = os.Getenv key environ.
Proof. intros Hne. unfold os.Getenv. now rewrite lookup_insert_ne. Qed.

Lemma len_pos_ltb (s : string) : (0 <? len s) = bool_decide (s ≠ "").
Proof.
  pose proof (len_nonneg s). pose proof (len_zero s) as Hz.
  case_bool_decide as Hs.
  - apply Z.ltb_lt. destruct (Z.eq_dec (len s) 0) as [He | Hne]; [| lia].
    apply Hz in He. contradiction.
  - apply Z.ltb_ge. apply Hz in Hs. lia.
Qed.

Lemma len_zero_eqb (s : string) : (len s =? 0) = bool_decide (s = "").
Proof.
  pose proof (len_zero s) as Hz. case_bool_decide as Hs.
  - apply Z.eqb_eq. now apply Hz.
  - apply Z.eqb_neq. intros He. now apply Hz in He.
Qed.

Lemma empty_not_true_token : "" ∉ spec.true_tokens.
Proof.
  unfold spec.true_tokens. rewrite !not_elem_of_cons. repeat split; try discriminate.
  apply not_elem_of_nil.
Qed.


Section LoaderFacts.
Context `{Quoting, params.Configs, ethereum.Constants}.
Import configuration.

Lemma mode_error_None (v : string) :
  spec.mode_error v = None ↔ v = "ONLINE" ∨ v = "OFFLINE".
Proof.
  unfold spec.mode_error. repeat case_decide; split; (discriminate || tauto).
Qed.

Lemma mode_error_invalid (v : string) :
  v ≠ "ONLINE" → v ≠ "OFFLINE" → v ≠ "" →
  spec.mode_error v = Some (fmt.Errorf_s " is not a valid mode" v).
Proof.
  intros Hon Hoff Hne. unfold spec.mode_error.
  rewrite decide_False by tauto. now rewrite decide_False by assumption.
Qed.

Lemma network_error_None (v : string) :
  spec.network_error v = None ↔ v = "MAINNET" ∨ v = "ORCHARD" ∨ v = "LOCAL".
Proof.
  unfold spec.network_error. repeat case_decide; split; (discriminate || tauto).
Qed.

Lemma network_error_invalid (v : string) :
  v ≠ "MAINNET" → v ≠ "ORCHARD" → v ≠ "LOCAL" → v ≠ "" →
  spec.network_error v = Some (fmt.Errorf_s " is not a valid network" v).
Proof.
  intros Hm Ho Hl Hne. unfold spec.network_error.
  rewrite decide_False by tauto. now rewrite decide_False by assumption.
Qed.

Lemma LoadConfiguration_refines (environ : gmap string string) :
  LoadConfiguration environ = (spec.load environ, environ).
Proof.
  unfold LoadConfiguration, call, LoadConfiguration_body, spec.load, spec.field_errors,
    spec.configuration_of.
  unfold Getenv, return_, mbind, mret, proc_bind, proc_ret.
  change ModeEnv with "MODE". change NetworkEnv with "NETWORK".
  change GoQuaiEnv with "GOQUAI". change SkipGoQuaiAdminEnv with "SKIP_GO_QUAI_ADMIN".
  change PortEnv with "PORT".
  destruct (String.eqb_spec (os.Getenv "MODE" environ) Online) as [Hm | Hm1];
    [| destruct (String.eqb_spec (os.Getenv "MODE" environ) Offline) as [Hm | Hm2];
       [| destruct (String.eqb_spec (os.Getenv "MODE" environ) "") as [Hm | Hm3] ] ];
    cbv beta iota.
  3: now rewrite Hm.
  3: now rewrite mode_error_invalid.
  all: rewrite (proj2 (mode_error_None _)) by (rewrite Hm; auto).
  all: destruct (String.eqb_spec (os.Getenv "NETWORK" environ) Mainnet) as [Hn | Hn1];
    [| destruct (String.eqb_spec (os.Getenv "NETWORK" environ) Orchard) as [Hn | Hn2];
       [| destruct (String.eqb_spec (os.Getenv "NETWORK" environ) Local) as [Hn | Hn3];
          [| destruct (String.eqb_spec (os.Getenv "NETWORK" environ) "") as [Hn | Hn4] ] ] ];
    cbv beta iota.
  all: try (rewrite network_error_invalid by assumption; reflexivity).
  all: rewrite Hn; try reflexivity.
  all: rewrite (proj2 (network_error_None _)) by (unfold Mainnet, Orchard, Local; auto).
  all: unfold spec.nodeURL_error, spec.networkTable.
  all: rewrite Hm.
  all: cbn [spec.first_error option_bind mbind].
  all: rewrite !len_pos_ltb, ParseBool_spec.
  all: unfold spec.skipAdmin_error, spec.port_error.
  all: set (g := os.Getenv "GOQUAI" environ);
    set (k := os.Getenv "SKIP_GO_QUAI_ADMIN" environ);
    set (p := os.Getenv "PORT" environ).
  all: destruct (decide (g = "")) as [Hg | Hg];
    [ rewrite (bool_decide_eq_false_2 (g ≠ "")) by tauto
    | rewrite (bool_decide_eq_true_2 (g ≠ "")) by tauto ].
  all: destruct (decide (k = "")) as [Hk | Hk];
    [ rewrite (bool_decide_eq_false_2 (k ≠ "")) by tauto;
      rewrite (decide_True (P := k = "" ∨ _)) by tauto;
      rewrite (bool_decide_eq_false_2 (k ∈ spec.true_tokens))
        by (rewrite Hk; apply empty_not_true_token)
    | rewrite (bool_decide_eq_true_2 (k ≠ "")) by tauto;
      destruct (decide (k ∈ spec.true_tokens)) as [Ht | Ht];
      [ rewrite (decide_True (P := k = "" ∨ _)) by tauto;
        rewrite (bool_decide_eq_true_2 (k ∈ spec.true_tokens)) by tauto
      | rewrite (bool_decide_eq_false_2 (k ∈ spec.true_tokens)) by tauto;
        destruct (decide (k ∈ spec.false_tokens)) as [Hf | Hf];
        [ rewrite (decide_True (P := k = "" ∨ _)) by tauto
        | rewrite (decide_False (P := k = "" ∨ _)) by tauto ] ] ].
  all: cbv beta iota; try reflexivity.
  all: change (os.Getenv "PORT" environ) with p; rewrite !len_zero_eqb.
  all: destruct (decide (p = "")) as [Hp | Hp];
    [ rewrite (bool_decide_eq_true_2 (p = "")) by tauto; reflexivity
    | rewrite !(bool_decide_eq_false_2 (p = "")) by tauto ].
  all: destruct (strconv.Atoi p) as [port [e |]]; cbn [not_nil orb fst fmap option_fmap option_map];
    [ reflexivity |].
  all: destruct (Z.leb_spec port 0);
    [ rewrite (decide_True (P := port ≤ 0)) by lia
    | rewrite (decide_False (P := port ≤ 0)) by lia ]; reflexivity.
Qed.

Lemma LoadConfiguration_result (environ : gmap string string) :
  (LoadConfiguration environ).1 = spec.load environ.
Proof. now rewrite LoadConfiguration_refines. Qed.

Lemma LoadConfiguration_environ (environ : gmap string string) :
  (LoadConfiguration environ).2 = environ.
Proof. now rewrite LoadConfiguration_refines. Qed.

(** A configuration is described exactly when no field is in error. *)
Lemma configuration_of_is_Some (environ : gmap string string) :
  spec.network_error (os.Getenv "NETWORK" environ) = None →
  is_Some (spec.configuration_of environ).
Proof.
  unfold spec.network_error, spec.configuration_of, spec.networkTable.
  case_decide as Hn; [| case_decide; discriminate]. intros _.
  destruct Hn as [-> | [-> | ->]]; cbn; eauto.
Qed.

Lemma load_cases (environ : gmap string string) :
  (∃ e, spec.first_error (spec.field_errors environ) = Some e ∧
        spec.load environ = (None, Some e)) ∨
  (∃ c, spec.first_error (spec.field_errors environ) = None ∧
        spec.configuration_of environ = Some c ∧
        spec.load environ = (Some c, None)).
Proof.
  unfold spec.load.
  destruct (spec.first_error (spec.field_errors environ)) as [e |] eqn:Hfirst.
  - left. eauto.
  - right. unfold spec.field_errors in Hfirst. cbn [spec.first_error] in Hfirst.
    destruct (spec.mode_error _); [discriminate |].
    destruct (spec.network_error _) eqn:Hn; [discriminate |].
    destruct (configuration_of_is_Some environ Hn) as [c Hc].
    exists c. now rewrite Hc.
Qed.

Lemma first_error_None (environ : gmap string string) :
  spec.first_error (spec.field_errors environ) = None ↔
  spec.mode_error (os.Getenv "MODE" environ) = None ∧
  spec.network_error (os.Getenv "NETWORK" environ) = None ∧
  spec.skipAdmin_error (os.Getenv "SKIP_GO_QUAI_ADMIN" environ) = None ∧
  spec.port_error (os.Getenv "PORT" environ) = None.
Proof.
  unfold spec.field_errors, spec.nodeURL_error. cbn [spec.first_error].
  destruct (spec.mode_error _), (spec.network_error _), (spec.skipAdmin_error _),
    (spec.port_error _); split; intros; try discriminate; intuition discriminate.
Qed.

Lemma skipAdmin_error_None (v : string) :
  spec.skipAdmin_error v = None ↔
  v = "" ∨ v ∈ spec.true_tokens ∨ v ∈ spec.false_tokens.
Proof.
  unfold spec.skipAdmin_error. case_decide; split; (discriminate || tauto).
Qed.

Lemma port_error_None (v : string) :
  spec.port_error v = None ↔ ∃ port, spec.parses_as v port ∧ 0 < port.
Proof.
  unfold spec.port_error. split.
  - case_decide; [discriminate |].
    destruct (strconv.Atoi v) as [port [e |]] eqn:Hatoi; [discriminate |].
    case_decide; [discriminate |]. intros _. exists port.
    split; [now apply Atoi_ok_inv | lia].
  - intros (port & Hparse & Hpos).
    assert (v ≠ "") by (intros ->; destruct Hparse; discriminate).
    rewrite decide_False by assumption.
    rewrite (Atoi_accepts v port Hparse). now rewrite decide_False by lia.
Qed.

(** What a successful load returns. *)
Lemma load_success (environ : gmap string string) (c : Configuration) :
  (LoadConfiguration environ).1 = (Some c, None) →
  spec.first_error (spec.field_errors environ) = None ∧
  spec.configuration_of environ = Some c.
Proof.
  rewrite LoadConfiguration_result.
  destruct (load_cases environ) as [(e & _ & ->) | (c' & Hfirst & Hc & ->)].
  - discriminate.
  - intros [= <-]. auto.
Qed.

Lemma load_failure (environ : gmap string string) (e : errors.error) :
  spec.first_error (spec.field_errors environ) = Some e →
  (LoadConfiguration environ).1 = (None, Some e).
Proof.
  intros Hfirst. rewrite LoadConfiguration_result. unfold spec.load. now rewrite Hfirst.
Qed.

Lemma load_error (environ : gmap string string) :
  (LoadConfiguration environ).1.2 = spec.first_error (spec.field_errors environ).
Proof.
  rewrite LoadConfiguration_result.
  destruct (load_cases environ) as [(e & -> & ->) | (c & -> & _ & ->)]; reflexivity.
Qed.

(** C7. [LoadConfiguration] is all-or-nothing: in every environment it
    returns either an error and no configuration, or a configuration
    and no error; so a returned error comes with a nil configuration and
    a returned configuration with a nil error. *)
Theorem C7_all_or_nothing (environ : gmap string string) :
  let '(config, err) := (LoadConfiguration environ).1 in
  ((∃ e, config = None ∧ err = Some e) ∨ (∃ c, config = Some c ∧ err = None)) ∧
  (err ≠ None → config = None) ∧
  (config ≠ None → err = None).
Proof.
  rewrite LoadConfiguration_result.
  destruct (load_cases environ) as [(e & _ & ->) | (c & _ & _ & ->)].
  - split; [left; eauto |]. split; [reflexivity | congruence].
  - split; [right; eauto |]. split; [congruence | reflexivity].
Qed.

(** The result depends on the environment through the five variables
    only. *)
Lemma LoadConfiguration_reads_five (environ environ' : gmap string string) :
  (∀ key, key ∈ ["MODE"; "NETWORK"; "GOQUAI"; "SKIP_GO_QUAI_ADMIN"; "PORT"] →
          os.Getenv key environ' = os.Getenv key environ) →
  (LoadConfiguration environ').1 = (LoadConfiguration environ).1.
Proof.
  intros Hsame. rewrite !LoadConfiguration_result.
  unfold spec.load, spec.field_errors, spec.configuration_of.
  rewrite !(Hsame "MODE"), !(Hsame "NETWORK"), !(Hsame "GOQUAI"),
    !(Hsame "SKIP_GO_QUAI_ADMIN"), !(Hsame "PORT");
    try reflexivity; rewrite !elem_of_cons; auto 10.
Qed.

(** C8. [LoadConfiguration] is deterministic and idempotent: it leaves
    the environment as it found it, so a second invocation runs on the
    same snapshot, and it returns a result equal to the first: the same
    error, or a configuration equal field for field. *)
Theorem C8_deterministic_idempotent (environ : gmap string string) :
  let '(first, environ1) := LoadConfiguration environ in
  let '(second, environ2) := LoadConfiguration environ1 in
  environ1 = environ ∧ environ2 = environ ∧ second = first.
Proof.
  rewrite LoadConfiguration_refines. rewrite LoadConfiguration_refines. auto.
Qed.

(** With every field valid the load succeeds, and returns the record
    described field by field in [spec.configuration_of]. *)
Lemma load_valid (environ : gmap string string) :
  os.Getenv "MODE" environ = "ONLINE" ∨ os.Getenv "MODE" environ = "OFFLINE" →
  os.Getenv "NETWORK" environ = "MAINNET" ∨ os.Getenv "NETWORK" environ = "ORCHARD"
    ∨ os.Getenv "NETWORK" environ = "LOCAL" →
  os.Getenv "SKIP_GO_QUAI_ADMIN" environ = ""
    ∨ os.Getenv "SKIP_GO_QUAI_ADMIN" environ ∈ spec.true_tokens
    ∨ os.Getenv "SKIP_GO_QUAI_ADMIN" environ ∈ spec.false_tokens →
  (∃ v, spec.parses_as (os.Getenv "PORT" environ) v ∧ 0 < v) →
  ∃ c, (LoadConfiguration environ).1 = (Some c, None) ∧
       spec.configuration_of environ = Some c.
Proof.
  intros Hmode Hnetwork Hskip Hport.
  assert (Hnone : spec.first_error (spec.field_errors environ) = None).
  { apply first_error_None. repeat split.
    - now apply mode_error_None.
    - now apply network_error_None.
    - now apply skipAdmin_error_None.
    - now apply port_error_None. }
  destruct (load_cases environ) as [(e & He & _) | (c & _ & Hc & Hload)];
    [congruence |].
  exists c. rewrite LoadConfiguration_result. auto.
Qed.

(** C2. [LoadConfiguration] validates the fields in the order mode,
    network, node-URL override, admin-skip flag, port, and returns the
    error of the first field that fails, alone. With every variable empty
    the error names MODE; with a valid MODE and an empty NETWORK it names
    NETWORK; with MODE and NETWORK valid, the admin-skip flag not in
    error and PORT empty it names PORT. *)
Theorem C2_first_failing_field (environ : gmap string string) :
  let mode := os.Getenv "MODE" environ in
  let network := os.Getenv "NETWORK" environ in
  let skip := os.Getenv "SKIP_GO_QUAI_ADMIN" environ in
  let port := os.Getenv "PORT" environ in
  let result := (LoadConfiguration environ).1 in
  result.2 = spec.first_error (spec.field_errors environ) ∧
  (mode = "" → result = (None, Some (errors.New "MODE must be populated"))) ∧
  (mode = "ONLINE" ∨ mode = "OFFLINE" → network = "" →
   result = (None, Some (errors.New "NETWORK must be populated"))) ∧
  (mode = "ONLINE" ∨ mode = "OFFLINE" →
   network = "MAINNET" ∨ network = "ORCHARD" ∨ network = "LOCAL" →
   skip = "" ∨ skip ∈ spec.true_tokens ∨ skip ∈ spec.false_tokens →
   port = "" →
   result = (None, Some (errors.New "PORT must be populated"))).
Proof.
  cbv zeta. split; [| split; [| split]].
  - apply load_error.
  - intros Hmode. apply load_failure.
    unfold spec.field_errors. rewrite Hmode. reflexivity.
  - intros Hmode Hnetwork. apply load_failure.
    unfold spec.field_errors. cbn [spec.first_error].
    apply mode_error_None in Hmode as ->. rewrite Hnetwork. reflexivity.
  - intros Hmode Hnetwork Hskip Hport. apply load_failure.
    unfold spec.field_errors, spec.nodeURL_error. cbn [spec.first_error].
    apply mode_error_None in Hmode as ->.
    apply network_error_None in Hnetwork as ->.
    apply skipAdmin_error_None in Hskip as ->.
    rewrite Hport. reflexivity.
Qed.

(** C5. The mode is Online exactly when MODE is "ONLINE" and Offline
    exactly when it is "OFFLINE", compared byte for byte; an empty MODE
    gives the error "MODE must be populated"; any other value gives an
    error whose text is that value followed by " is not a valid mode".
    "ONLINE" and "OFFLINE" are accepted: the mode then raises no error
    (the error returned, if any, is the first of the later fields'),
    and when the later fields are valid too the load returns a
    configuration whose mode is the value of MODE. *)
Theorem C5_mode (environ : gmap string string) :
  let mode := os.Getenv "MODE" environ in
  let result := (LoadConfiguration environ).1 in
  (mode = "" → result = (None, Some (errors.New "MODE must be populated"))) ∧
  (mode ≠ "" → mode ≠ "ONLINE" → mode ≠ "OFFLINE" →
   ∃ e, result = (None, Some e) ∧
        errors.Error e = mode +:+ " is not a valid mode" ∧
        spec.contains mode (errors.Error e)) ∧
  (∀ c, result = (Some c, None) →
        (Mode_ c = Online ↔ mode = "ONLINE") ∧
        (Mode_ c = Offline ↔ mode = "OFFLINE") ∧
        (Mode_ c = Online ∨ Mode_ c = Offline)) ∧
  (mode = "ONLINE" ∨ mode = "OFFLINE" →
   result.2 = spec.first_error (tail (spec.field_errors environ)) ∧
   (os.Getenv "NETWORK" environ = "MAINNET" ∨ os.Getenv "NETWORK" environ = "ORCHARD"
      ∨ os.Getenv "NETWORK" environ = "LOCAL" →
    os.Getenv "SKIP_GO_QUAI_ADMIN" environ = ""
      ∨ os.Getenv "SKIP_GO_QUAI_ADMIN" environ ∈ spec.true_tokens
      ∨ os.Getenv "SKIP_GO_QUAI_ADMIN" environ ∈ spec.false_tokens →
    (∃ v, spec.parses_as (os.Getenv "PORT" environ) v ∧ 0 < v) →
    ∃ c, result = (Some c, None) ∧ Mode_ c = mode)).
Proof.
  cbv zeta. split; [| split; [| split]].
  4: {
    intros Hmode. split.
    - rewrite load_error. unfold spec.field_errors. cbn [spec.first_error tail].
      now rewrite (proj2 (mode_error_None _) Hmode).
    - intros Hnetwork Hskip Hport.
      destruct (load_valid environ Hmode Hnetwork Hskip Hport) as (c & Hload & Hc).
      exists c. split; [assumption |].
      unfold spec.configuration_of in Hc.
      destruct (spec.networkTable _); [| discriminate].
      cbn in Hc. now injection Hc as <-. }
  - intros Hmode. apply load_failure.
    unfold spec.field_errors. rewrite Hmode. reflexivity.
  - intros Hne Hon Hoff.
    exists (errors.New (os.Getenv "MODE" environ +:+ " is not a valid mode")).
    split; [| split].
    + apply load_failure. unfold spec.field_errors, spec.mode_error.
      cbn [spec.first_error].
      rewrite decide_False by tauto. now rewrite decide_False by tauto.
    + reflexivity.
    + exists "", " is not a valid mode". reflexivity.
  - intros c Hload. apply load_success in Hload as [Hfirst Hc].
    apply first_error_None in Hfirst as (Hmode & _).
    apply mode_error_None in Hmode.
    unfold spec.configuration_of in Hc.
    destruct (spec.networkTable _); [| discriminate].
    cbn in Hc. injection Hc as <-. cbn [Mode_]. unfold Online, Offline.
    destruct Hmode as [-> | ->]; intuition discriminate.
Qed.

(** C9. On every successful load the blockchain of the network
    identifier is the one constant [ethereum.Blockchain]; only the
    network name depends on the network selected. *)
Theorem C9_blockchain_constant (environ : gmap string string) (c : Configuration) :
  (LoadConfiguration environ).1 = (Some c, None) →
  ∃ name,
    Network c = Some (types.mkNetworkIdentifier ethereum.Blockchain name None) ∧
    ((os.Getenv "NETWORK" environ = "MAINNET" ∧ name = ethereum.MainnetNetwork) ∨
     (os.Getenv "NETWORK" environ = "ORCHARD" ∧ name = ethereum.OrchardNetwork) ∨
     (os.Getenv "NETWORK" environ = "LOCAL" ∧ name = ethereum.DevNetwork)).
Proof.
  intros Hload. apply load_success in Hload as [Hfirst Hc].
  apply first_error_None in Hfirst as (_ & Hnetwork & _).
  apply network_error_None in Hnetwork.
  unfold spec.configuration_of in Hc.
  destruct Hnetwork as [Hn | [Hn | Hn]]; rewrite Hn in Hc; cbn in Hc;
    injection Hc as <-; cbn [Network]; eauto 6.
Qed.

(** C6. A non-empty GOQUAI is taken as it is for the node URL and
    [RemoteGoQuai] is true; an empty one leaves the default
    "http://localhost:8545" and [RemoteGoQuai] false; so on a successful
    load [RemoteGoQuai] is true exactly when GOQUAI was not empty. The
    override has no failure mode: the error returned, if any, is the
    same whatever GOQUAI holds, and is the first of the other four
    fields' errors. When the other four fields are valid the load
    returns a configuration, with the override and true for a non-empty
    GOQUAI and with the default and false for an empty one. *)
Theorem C6_node_url_override (environ : gmap string string) :
  let override := os.Getenv "GOQUAI" environ in
  (∀ c, (LoadConfiguration environ).1 = (Some c, None) →
        (override ≠ "" → GoQuaiURL c = override ∧ RemoteGoQuai c = true) ∧
        (override = "" → GoQuaiURL c = DefaultGoQuaiURL ∧ RemoteGoQuai c = false) ∧
        (RemoteGoQuai c = true ↔ override ≠ "")) ∧
  (∀ url, (LoadConfiguration (<["GOQUAI" := url]> environ)).1.2
          = (LoadConfiguration environ).1.2) ∧
  DefaultGoQuaiURL = "http://localhost:8545" ∧
  (LoadConfiguration environ).1.2
  = spec.first_error
      [ spec.mode_error (os.Getenv "MODE" environ);
        spec.network_error (os.Getenv "NETWORK" environ);
        spec.skipAdmin_error (os.Getenv "SKIP_GO_QUAI_ADMIN" environ);
        spec.port_error (os.Getenv "PORT" environ) ] ∧
  (os.Getenv "MODE" environ = "ONLINE" ∨ os.Getenv "MODE" environ = "OFFLINE" →
   os.Getenv "NETWORK" environ = "MAINNET" ∨ os.Getenv "NETWORK" environ = "ORCHARD"
     ∨ os.Getenv "NETWORK" environ = "LOCAL" →
   os.Getenv "SKIP_GO_QUAI_ADMIN" environ = ""
     ∨ os.Getenv "SKIP_GO_QUAI_ADMIN" environ ∈ spec.true_tokens
     ∨ os.Getenv "SKIP_GO_QUAI_ADMIN" environ ∈ spec.false_tokens →
   (∃ v, spec.parses_as (os.Getenv "PORT" environ) v ∧ 0 < v) →
   ∃ c, (LoadConfiguration environ).1 = (Some c, None) ∧
        (override ≠ "" → GoQuaiURL c = override ∧ RemoteGoQuai c = true) ∧
        (override = "" → GoQuaiURL c = DefaultGoQuaiURL ∧ RemoteGoQuai c = false)).
Proof.
  cbv zeta. split; [| split; [| split; [reflexivity | split]]].
  3: {
    rewrite load_error. unfold spec.field_errors, spec.nodeURL_error.
    cbn [spec.first_error]. reflexivity. }
  3: {
    intros Hmode Hnetwork Hskip Hport.
    destruct (load_valid environ Hmode Hnetwork Hskip Hport) as (c & Hload & Hc).
    exists c. split; [assumption |].
    unfold spec.configuration_of in Hc.
    destruct (spec.networkTable _); [| discriminate].
    cbn in Hc. injection Hc as <-. cbn [GoQuaiURL RemoteGoQuai].
    destruct (decide (os.Getenv "GOQUAI" environ = "")) as [Hg | Hg].
    - rewrite bool_decide_eq_false_2 by tauto. split; [contradiction | auto].
    - rewrite bool_decide_eq_true_2 by tauto. split; [auto | contradiction]. }
  - intros c Hload. apply load_success in Hload as [_ Hc].
    unfold spec.configuration_of in Hc.
    destruct (spec.networkTable _); [| discriminate].
    cbn in Hc. injection Hc as <-. cbn [GoQuaiURL RemoteGoQuai].
    destruct (decide (os.Getenv "GOQUAI" environ = "")) as [Hg | Hg].
    + rewrite bool_decide_eq_false_2 by tauto. intuition discriminate.
    + rewrite bool_decide_eq_true_2 by tauto. tauto.
  - intros url.
    rewrite !load_error. unfold spec.field_errors, spec.nodeURL_error.
    now rewrite !Getenv_insert_ne by discriminate.
Qed.

(** C3. Once mode, network and admin-skip flag have passed: an empty
    PORT gives the error "PORT must be populated"; a non-empty PORT that
    is not the decimal text of an [int], or is that of an [int] not
    above zero, gives an error whose text ends in "unable to parse port "
    followed by the raw text; any other PORT is the decimal text of a
    strictly positive [int], and the configuration returned carries
    it. *)
Theorem C3_port (environ : gmap string string) :
  let mode := os.Getenv "MODE" environ in
  let network := os.Getenv "NETWORK" environ in
  let skip := os.Getenv "SKIP_GO_QUAI_ADMIN" environ in
  let port := os.Getenv "PORT" environ in
  let result := (LoadConfiguration environ).1 in
  mode = "ONLINE" ∨ mode = "OFFLINE" →
  network = "MAINNET" ∨ network = "ORCHARD" ∨ network = "LOCAL" →
  skip = "" ∨ skip ∈ spec.true_tokens ∨ skip ∈ spec.false_tokens →
  (port = "" → result = (None, Some (errors.New "PORT must be populated"))) ∧
  (port ≠ "" →
   (∀ v, ¬ spec.parses_as port v) ∨ (∃ v, spec.parses_as port v ∧ v ≤ 0) →
   ∃ e cause,
     result = (None, Some e) ∧
     errors.Error e = cause +:+ ": unable to parse port " +:+ port ∧
     spec.contains ("unable to parse port " +:+ port) (errors.Error e)) ∧
  (∀ v, spec.parses_as port v → 0 < v →
        ∃ c, result = (Some c, None) ∧ Port c = v).
Proof.
  cbv zeta. intros Hmode Hnetwork Hskip.
  apply mode_error_None in Hmode. apply network_error_None in Hnetwork.
  apply skipAdmin_error_None in Hskip.
  assert (Hfirst : spec.first_error (spec.field_errors environ)
                   = spec.port_error (os.Getenv "PORT" environ)).
  { unfold spec.field_errors, spec.nodeURL_error. cbn [spec.first_error].
    rewrite Hmode, Hnetwork, Hskip. now destruct (spec.port_error _). }
  assert (Htext : ∀ cause port : string,
             spec.contains ("unable to parse port " +:+ port)
               (cause +:+ ": unable to parse port " +:+ port)).
  { intros cause port. apply contains_app_r.
    change (spec.contains ("unable to parse port " +:+ port)
              (": " +:+ ("unable to parse port " +:+ port))).
    apply contains_app_r. apply contains_refl. }
  split; [| split].
  - intros Hport. apply load_failure. rewrite Hfirst, Hport. reflexivity.
  - intros Hne [Hno | (v & Hparse & Hle)].
    + destruct (Atoi_rejects _ Hno) as (i & cause & Hatoi).
      eexists _, _. split; [| split].
      * apply load_failure. rewrite Hfirst. unfold spec.port_error.
        rewrite decide_False by assumption. rewrite Hatoi. reflexivity.
      * reflexivity.
      * apply Htext.
    + exists (errors.wrapError
                ("%!w(<nil>): unable to parse port " +:+ os.Getenv "PORT" environ) None),
        "%!w(<nil>)".
      split; [| split].
      * apply load_failure. rewrite Hfirst. unfold spec.port_error.
        rewrite decide_False by assumption. rewrite (Atoi_accepts _ _ Hparse).
        rewrite decide_True by assumption. reflexivity.
      * reflexivity.
      * exact (Htext "%!w(<nil>)" (os.Getenv "PORT" environ)).
  - intros v Hparse Hpos.
    assert (Hnone : spec.first_error (spec.field_errors environ) = None).
    { rewrite Hfirst. apply port_error_None. eauto. }
    destruct (load_cases environ) as [(e & He & _) | (c & _ & Hc & Hload)];
      [congruence |].
    exists c. rewrite LoadConfiguration_result. split; [assumption |].
    unfold spec.configuration_of in Hc.
    destruct (spec.networkTable _); [| discriminate].
    cbn in Hc. injection Hc as <-. cbn [Port].
    now rewrite (Atoi_accepts _ _ Hparse).
Qed.


(** C1, amended. In every environment where MODE is "ONLINE" or
    "OFFLINE", NETWORK is "MAINNET", "ORCHARD" or "LOCAL",
    SKIP_GO_QUAI_ADMIN is empty or one of the twelve boolean tokens, and
    PORT is the decimal text of a strictly positive [int], the load
    succeeds and the chain parameters, genesis block identifier and node
    launch arguments returned are those of the network's entry in the
    table. LOCAL gives a nil genesis block identifier; MAINNET and
    ORCHARD give the table's two identifiers, which are not nil and,
    the table's two being different, differ from each other. *)
Theorem C1_valid_environment_loads (environ : gmap string string) (port : Z) :
  let mode := os.Getenv "MODE" environ in
  let network := os.Getenv "NETWORK" environ in
  let skip := os.Getenv "SKIP_GO_QUAI_ADMIN" environ in
  mode = "ONLINE" ∨ mode = "OFFLINE" →
  network = "MAINNET" ∨ network = "ORCHARD" ∨ network = "LOCAL" →
  skip = "" ∨ skip ∈ spec.true_tokens ∨ skip ∈ spec.false_tokens →
  spec.parses_as (os.Getenv "PORT" environ) port → 0 < port →
  ethereum.MainnetGenesisBlockIdentifier ≠ ethereum.OrchardGenesisBlockIdentifier →
  ∃ c entry,
    (LoadConfiguration environ).1 = (Some c, None) ∧
    spec.networkTable network = Some entry ∧
    Params c = Some (spec.chainParameters entry) ∧
    GenesisBlockIdentifier c = spec.genesisBlockIdentifier entry ∧
    GoQuaiArguments c = spec.nodeLaunchArguments entry ∧
    (network = "LOCAL" → GenesisBlockIdentifier c = None) ∧
    (network = "MAINNET" →
     GenesisBlockIdentifier c = Some ethereum.MainnetGenesisBlockIdentifier ∧
     GenesisBlockIdentifier c ≠ Some ethereum.OrchardGenesisBlockIdentifier) ∧
    (network = "ORCHARD" →
     GenesisBlockIdentifier c = Some ethereum.OrchardGenesisBlockIdentifier ∧
     GenesisBlockIdentifier c ≠ Some ethereum.MainnetGenesisBlockIdentifier).
Proof.
  cbv zeta. intros Hmode Hnetwork Hskip Hparse Hpos Hdistinct.
  assert (Hnone : spec.first_error (spec.field_errors environ) = None).
  { apply first_error_None. repeat split.
    - now apply mode_error_None.
    - now apply network_error_None.
    - now apply skipAdmin_error_None.
    - apply port_error_None. eauto. }
  destruct (load_cases environ) as [(e & He & _) | (c & _ & Hc & Hload)];
    [congruence |].
  rewrite LoadConfiguration_result. unfold spec.configuration_of in Hc.
  destruct Hnetwork as [Hn | [Hn | Hn]]; rewrite Hn in Hc |- *; cbn in Hc;
    injection Hc as <-; eexists _, _;
    (split; [exact Hload |]); (split; [reflexivity |]);
    cbn [Params GenesisBlockIdentifier GoQuaiArguments spec.chainParameters
           spec.genesisBlockIdentifier spec.nodeLaunchArguments];
    repeat split; try discriminate; congruence.
Qed.

End LoaderFacts.

(** ** Address checksumming *)

Section ChecksumFacts.
Context `{common.Addresses}.

Lemma ChecksumAddress_false (address : string) (location : common.Location)
    (addr : common.Address) :
  ethereum.ChecksumAddress address location = Returns (addr, false) ↔
  (common.NewMixedcaseAddressFromString address location).2 ≠ None ∧
  addr = common.Address_zero.
Proof.
  unfold ethereum.ChecksumAddress.
  destruct (common.NewMixedcaseAddressFromString address location)
    as [[ma |] [err |]]; cbn [snd].
  - split; [intros [= <-]; now split | intros [_ ->]; reflexivity].
  - split; [discriminate | intros [Hnone _]; now destruct Hnone].
  - split; [intros [= <-]; now split | intros [_ ->]; reflexivity].
  - split; [discriminate | intros [Hnone _]; now destruct Hnone].
Qed.

Lemma ChecksumAddress_true (address : string) (location : common.Location)
    (addr : common.Address) :
  ethereum.ChecksumAddress address location = Returns (addr, true) ↔
  ∃ ma, common.NewMixedcaseAddressFromString address location = (Some ma, None) ∧
        addr = common.MixedcaseAddress_Address ma.
Proof.
  unfold ethereum.ChecksumAddress.
  destruct (common.NewMixedcaseAddressFromString address location)
    as [[ma |] [err |]].
  - split; [discriminate | intros (ma' & Heq & _); discriminate].
  - split; [intros [= <-]; eauto | intros (ma' & [= <-] & ->); reflexivity].
  - split; [discriminate | intros (ma' & Heq & _); discriminate].
  - split; [discriminate | intros (ma' & Heq & _); discriminate].
Qed.

Lemma MustChecksum_cases (address : string) (location : common.Location) :
  ethereum.MustChecksum address location =
    match ethereum.ChecksumAddress address location with
    | Returns (addr, true) => Returns addr
    | Returns (_, false) => Exits 1 ("invalid address " +:+ address)
    | Exits code logged => Exits code logged
    | Panics => Panics
    end.
Proof.
  unfold ethereum.MustChecksum.
  destruct (ethereum.ChecksumAddress address location) as [[addr [|]] | |]; reflexivity.
Qed.

(** C10. When [ChecksumAddress] reports failure the address it returns
    is the zero address, and it reports failure exactly when the parser
    returns an error; it reports success exactly when the parser returns
    an address and no error, and the address is then the parsed one. For
    a parser that returns an address whenever it returns no error, as
    go-quai's does, success is therefore reported exactly when the parse
    succeeds. [MustChecksum] returns an address exactly when
    [ChecksumAddress] returns that address with [ok = true]; when
    [ChecksumAddress] reports failure it ends the process instead. *)
Theorem C10_checksum_address (address : string) (location : common.Location) :
  let parsed := common.NewMixedcaseAddressFromString address location in
  let checked := ethereum.ChecksumAddress address location in
  (∀ addr, checked = Returns (addr, false) → addr = common.Address_zero) ∧
  ((∃ addr, checked = Returns (addr, false)) ↔ parsed.2 ≠ None) ∧
  (∀ addr, checked = Returns (addr, true) ↔
           ∃ ma, parsed = (Some ma, None) ∧ addr = common.MixedcaseAddress_Address ma) ∧
  ((parsed.2 = None → parsed.1 ≠ None) →
   ((∃ addr, checked = Returns (addr, true)) ↔ parsed.2 = None)) ∧
  (∀ addr, ethereum.MustChecksum address location = Returns addr ↔
           checked = Returns (addr, true)) ∧
  (∀ addr, checked = Returns (addr, false) →
           ethereum.MustChecksum address location
           = Exits 1 ("invalid address " +:+ address)).
Proof.
  cbv zeta. split; [| split; [| split; [| split; [| split]]]].
  - intros addr Hfalse. now apply ChecksumAddress_false in Hfalse.
  - split.
    + intros [addr Hfalse]. now apply ChecksumAddress_false in Hfalse.
    + intros Herr. exists common.Address_zero. now apply ChecksumAddress_false.
  - apply ChecksumAddress_true.
  - intros Hcontract. split.
    + intros [addr Htrue]. apply ChecksumAddress_true in Htrue as (ma & -> & _).
      reflexivity.
    + intros Hnone. specialize (Hcontract Hnone).
      destruct (common.NewMixedcaseAddressFromString address location)
        as [[ma |] err] eqn:Hparsed; cbn [fst snd] in *; [| contradiction].
      subst err. exists (common.MixedcaseAddress_Address ma).
      apply ChecksumAddress_true. exists ma. now rewrite Hparsed.
  - intros addr. rewrite MustChecksum_cases.
    destruct (ethereum.ChecksumAddress address location) as [[addr' [|]] | |];
      split; intros Heq; try discriminate; now injection Heq as <-.
  - intros addr Hfalse. rewrite MustChecksum_cases. now rewrite Hfalse.
Qed.

End ChecksumFacts.

(** ** The loader on concrete environments *)

Section Samples.
#[local] Existing Instance sample.Quote.
#[local] Existing Instance sample.Configs.
#[local] Existing Instance sample.Constants.
Import configuration.

Lemma parses_1000 : spec.parses_as "1000" 1000.
Proof. split; [reflexivity | unfold strconv.fits_int; lia]. Qed.

(** C1 as stated fails: MODE, NETWORK and PORT are valid, and the load
    fails on the admin-skip flag. *)
Lemma C1_counterexample :
  let environ := <["SKIP_GO_QUAI_ADMIN" := "maybe"]> sample.env_mainnet in
  os.Getenv "MODE" environ = "ONLINE" ∧
  os.Getenv "NETWORK" environ = "MAINNET" ∧
  os.Getenv "PORT" environ = "1000" ∧
  spec.parses_as "1000" 1000 ∧
  (LoadConfiguration environ).1 =
    (None,
     Some (fmt.Errorf_w_s ": unable to parse SKIP_GO_QUAI_ADMIN "
             (Some (errors.numError (strconv.syntaxError "ParseBool" "maybe")))
             "maybe")).
Proof.
  cbv zeta. do 3 (split; [reflexivity |]).
  split; [exact parses_1000 | vm_compute; reflexivity].
Qed.

Lemma C1_witness :
  ∃ c,
    (LoadConfiguration sample.env_mainnet).1 = (Some c, None) ∧
    Params c = Some params.ProgpowColosseumChainConfig ∧
    GenesisBlockIdentifier c = Some ethereum.MainnetGenesisBlockIdentifier ∧
    GenesisBlockIdentifier c ≠ Some ethereum.OrchardGenesisBlockIdentifier ∧
    GoQuaiArguments c = ethereum.MainnetGoQuaiArguments.
Proof.
  destruct (C1_valid_environment_loads sample.env_mainnet 1000)
    as (c & entry & Hload & Hentry & Hparams & Hgenesis & Hargs & _ & Hmainnet & _).
  - left. reflexivity.
  - left. reflexivity.
  - left. reflexivity.
  - exact parses_1000.
  - lia.
  - discriminate.
  - destruct (Hmainnet eq_refl) as [Hsome Hdiff].
    injection Hentry as <-.
    exists c. repeat split; assumption.
Defined.

Lemma C2_witness :
  (LoadConfiguration ∅).1 = (None, Some (errors.New "MODE must be populated")) ∧
  (LoadConfiguration (<["MODE" := "ONLINE"]> ∅)).1
    = (None, Some (errors.New "NETWORK must be populated")) ∧
  (LoadConfiguration (<["MODE" := "ONLINE"]> (<["NETWORK" := "MAINNET"]> ∅))).1
    = (None, Some (errors.New "PORT must be populated")).
Proof.
  split; [| split].
  - apply (C2_first_failing_field ∅). reflexivity.
  - apply (C2_first_failing_field (<["MODE" := "ONLINE"]> ∅)).
    + left. reflexivity.
    + reflexivity.
  - apply (C2_first_failing_field (<["MODE" := "ONLINE"]> (<["NETWORK" := "MAINNET"]> ∅))).
    + left. reflexivity.
    + left. reflexivity.
    + left. reflexivity.
    + reflexivity.
Defined.

Lemma C3_witness :
  (∃ c, (LoadConfiguration sample.env_mainnet).1 = (Some c, None) ∧ Port c = 1000) ∧
  (∃ e, (LoadConfiguration (<["PORT" := "-5"]> sample.env_mainnet)).1 = (None, Some e) ∧
        spec.contains "unable to parse port -5" (errors.Error e)).
Proof.
  split.
  - apply (C3_port sample.env_mainnet).
    + left. reflexivity.
    + left. reflexivity.
    + left. reflexivity.
    + exact parses_1000.
    + lia.
  - destruct (C3_port (<["PORT" := "-5"]> sample.env_mainnet))
      as (_ & Hbad & _).
    + left. reflexivity.
    + left. reflexivity.
    + left. reflexivity.
    + destruct Hbad as (e & cause & Hload & _ & Htext).
      * discriminate.
      * right. exists (-5). split; [| lia].
        split; [reflexivity | unfold strconv.fits_int; lia].
      * exists e. split; assumption.
Defined.



Lemma C5_witness :
  (∃ e, (LoadConfiguration (<["MODE" := "online"]> sample.env_mainnet)).1 = (None, Some e) ∧
        errors.Error e = "online is not a valid mode") ∧
  (∀ c, (LoadConfiguration sample.env_mainnet).1 = (Some c, None) → Mode_ c = Online) ∧
  (∃ c, (LoadConfiguration sample.env_mainnet).1 = (Some c, None) ∧ Mode_ c = Online) ∧
  (∃ c, (LoadConfiguration (<["MODE" := "OFFLINE"]> sample.env_mainnet)).1 = (Some c, None) ∧
        Mode_ c = Offline) ∧
  Mode_ <$> (LoadConfiguration sample.env_mainnet).1.1 = Some Online ∧
  Mode_ <$> (LoadConfiguration (<["MODE" := "OFFLINE"]> sample.env_mainnet)).1.1
  = Some Offline.
Proof.
  split; [| split; [| split; [| split; [| split; [vm_compute; reflexivity
                                                  | vm_compute; reflexivity]]]]].
  3: {
    destruct (C5_mode sample.env_mainnet) as (_ & _ & _ & Haccepted).
    destruct Haccepted as [_ Hloads]; [left; reflexivity |].
    apply Hloads.
    - left. reflexivity.
    - left. reflexivity.
    - exists 1000. split; [exact parses_1000 | lia]. }
  3: {
    destruct (C5_mode (<["MODE" := "OFFLINE"]> sample.env_mainnet))
      as (_ & _ & _ & Haccepted).
    destruct Haccepted as [_ Hloads]; [right; reflexivity |].
    apply Hloads.
    - left. reflexivity.
    - left. reflexivity.
    - exists 1000. split; [exact parses_1000 | lia]. }
  - destruct (C5_mode (<["MODE" := "online"]> sample.env_mainnet)) as (_ & Hbad & _).
    destruct Hbad as (e & Hload & Htext & _); try discriminate.
    exists e. split; assumption.
  - intros c Hload.
    destruct (C5_mode sample.env_mainnet) as (_ & _ & Hok & _).
    apply (Hok c Hload). reflexivity.
Defined.

Lemma C6_witness :
  (∃ c, (LoadConfiguration (<["GOQUAI" := "http://blah"]> sample.env_mainnet)).1
        = (Some c, None) ∧
        GoQuaiURL c = "http://blah" ∧ RemoteGoQuai c = true) ∧
  (∃ c, (LoadConfiguration sample.env_mainnet).1 = (Some c, None) ∧
        GoQuaiURL c = "http://localhost:8545" ∧ RemoteGoQuai c = false) ∧
  (λ c, (GoQuaiURL c, RemoteGoQuai c)) <$> (LoadConfiguration sample.env_mainnet).1.1
  = Some ("http://localhost:8545", false) ∧
  (λ c, (GoQuaiURL c, RemoteGoQuai c))
    <$> (LoadConfiguration (<["GOQUAI" := "http://blah"]> sample.env_mainnet)).1.1
  = Some ("http://blah", true).
Proof.
  split; [| split; [| split; [vm_compute; reflexivity | vm_compute; reflexivity]]].
  - destruct (C6_node_url_override (<["GOQUAI" := "http://blah"]> sample.env_mainnet))
      as (_ & _ & _ & _ & Hloads).
    destruct Hloads as (c & Hload & Hset & _).
    + left. reflexivity.
    + left. reflexivity.
    + left. reflexivity.
    + exists 1000. split; [exact parses_1000 | lia].
    + exists c. split; [assumption |]. apply Hset. discriminate.
  - destruct (C6_node_url_override sample.env_mainnet) as (_ & _ & _ & _ & Hloads).
    destruct Hloads as (c & Hload & _ & Hdefault).
    + left. reflexivity.
    + left. reflexivity.
    + left. reflexivity.
    + exists 1000. split; [exact parses_1000 | lia].
    + exists c. split; [assumption |]. apply Hdefault. reflexivity.
Defined.

Lemma C9_witness :
  ∃ c name,
    (LoadConfiguration (<["NETWORK" := "LOCAL"]> sample.env_mainnet)).1 = (Some c, None) ∧
    Network c = Some (types.mkNetworkIdentifier ethereum.Blockchain name None).
Proof.
  assert (Hload : ∃ c, (LoadConfiguration (<["NETWORK" := "LOCAL"]> sample.env_mainnet)).1
                       = (Some c, None))
    by (eexists; vm_compute; reflexivity).
  destruct Hload as [c Hload].
  destruct (C9_blockchain_constant _ c Hload) as (name & Hnetwork & _).
  exists c, name. split; assumption.
Defined.

(** *** The cases of [TestLoadConfiguration] *)

Example test_no_envs_set :
  (LoadConfiguration ∅).1 = (None, Some (errors.New "MODE must be populated")).
Proof. vm_compute. reflexivity. Qed.

Example test_only_mode_set :
  (LoadConfiguration (<["MODE" := "ONLINE"]> ∅)).1
  = (None, Some (errors.New "NETWORK must be populated")).
Proof. vm_compute. reflexivity. Qed.

Example test_only_mode_and_network_set :
  (LoadConfiguration (<["MODE" := "ONLINE"]> (<["NETWORK" := "MAINNET"]> ∅))).1
  = (None, Some (errors.New "PORT must be populated")).
Proof. vm_compute. reflexivity. Qed.

Example test_all_set_mainnet :
  (LoadConfiguration (<["SKIP_GO_QUAI_ADMIN" := "FALSE"]> sample.env_mainnet)).1
  = (Some (mkConfiguration Online
             (Some (types.mkNetworkIdentifier ethereum.Blockchain ethereum.MainnetNetwork None))
             (Some ethereum.MainnetGenesisBlockIdentifier)
             DefaultGoQuaiURL false 1000 ethereum.MainnetGoQuaiArguments false
             (Some params.ProgpowColosseumChainConfig)),
     None).
Proof. vm_compute. reflexivity. Qed.

Example test_all_set_mainnet_geth :
  (LoadConfiguration
     (<["GOQUAI" := "http://blah"]>
        (<["SKIP_GO_QUAI_ADMIN" := "TRUE"]> sample.env_mainnet))).1
  = (Some (mkConfiguration Online
             (Some (types.mkNetworkIdentifier ethereum.Blockchain ethereum.MainnetNetwork None))
             (Some ethereum.MainnetGenesisBlockIdentifier)
             "http://blah" true 1000 ethereum.MainnetGoQuaiArguments true
             (Some params.ProgpowColosseumChainConfig)),
     None).
Proof. vm_compute. reflexivity. Qed.

Example test_all_set_orchard :
  (LoadConfiguration (<["NETWORK" := "ORCHARD"]> sample.env_mainnet)).1
  = (Some (mkConfiguration Online
             (Some (types.mkNetworkIdentifier ethereum.Blockchain ethereum.OrchardNetwork None))
             (Some ethereum.OrchardGenesisBlockIdentifier)
             DefaultGoQuaiURL false 1000 ethereum.OrchardGoQuaiArguments false
             (Some params.ProgpowOrchardChainConfig)),
     None).
Proof. vm_compute. reflexivity. Qed.

Example test_all_set_testnet :
  (LoadConfiguration
     (<["NETWORK" := "LOCAL"]> (<["SKIP_GO_QUAI_ADMIN" := "TRUE"]> sample.env_mainnet))).1
  = (Some (mkConfiguration Online
             (Some (types.mkNetworkIdentifier ethereum.Blockchain ethereum.DevNetwork None))
             None
             DefaultGoQuaiURL false 1000 ethereum.LocalGoQuaiArguments true
             (Some params.ProgpowLocalChainConfig)),
     None).
Proof. vm_compute. reflexivity. Qed.

Example test_invalid_mode :
  (LoadConfiguration
     (<["MODE" := "bad mode"]> (<["NETWORK" := "ORCHARD"]> sample.env_mainnet))).1
  = (None, Some (errors.New "bad mode is not a valid mode")).
Proof. vm_compute. reflexivity. Qed.

Example test_invalid_network :
  (LoadConfiguration
     (<["MODE" := "OFFLINE"]> (<["NETWORK" := "bad network"]> sample.env_mainnet))).1
  = (None, Some (errors.New "bad network is not a valid network")).
Proof. vm_compute. reflexivity. Qed.

Example test_invalid_port :
  ∃ e,
    (LoadConfiguration
       (<["MODE" := "OFFLINE"]>
          (<["NETWORK" := "ORCHARD"]> (<["PORT" := "bad port"]> sample.env_mainnet)))).1
    = (None, Some e) ∧
    errors.Unwrap e = Some (errors.numError (strconv.syntaxError "Atoi" "bad port")) ∧
    spec.contains "unable to parse port bad port" (errors.Error e).
Proof.
  eexists. split; [vm_compute; reflexivity |]. split; [reflexivity |].
  exists ("strconv.Atoi: parsing " +:+ Quote "bad port" +:+ ": invalid syntax: "), "".
  vm_compute. reflexivity.
Qed.

(** Edge cases of the port. *)
Example port_zero_rejected :
  (LoadConfiguration (<["PORT" := "0"]> sample.env_mainnet)).1
  = (None, Some (errors.wrapError "%!w(<nil>): unable to parse port 0" None)).
Proof. vm_compute. reflexivity. Qed.

Example port_out_of_range_rejected :
  (LoadConfiguration (<["PORT" := "9223372036854775808"]> sample.env_mainnet)).1.2
  = Some (fmt.Errorf_w_s ": unable to parse port "
            (Some (errors.numError (strconv.rangeError "Atoi" "9223372036854775808")))
            "9223372036854775808").
Proof. vm_compute. reflexivity. Qed.

Example port_plus_sign_accepted :
  (LoadConfiguration (<["PORT" := "+8080"]> sample.env_mainnet)).1.2 = None.
Proof. vm_compute. reflexivity. Qed.

(** *** Checksumming at the sample parser *)

Example checksum_rejected :
  @ethereum.ChecksumAddress sample.Addresses "0x12" [0; 0]
  = Returns ("", false).
Proof. reflexivity. Qed.

Example must_checksum_exits :
  @ethereum.MustChecksum sample.Addresses "0x12" [0; 0]
  = Exits 1 "invalid address 0x12".
Proof. reflexivity. Qed.

Lemma C10_witness :
  let address := "0x0000000000000000000000000000000000000001" in
  (∃ addr, @ethereum.ChecksumAddress sample.Addresses address [0; 0]
           = Returns (addr, true)) ∧
  @ethereum.MustChecksum sample.Addresses address [0; 0] = Returns address.
Proof.
  cbv zeta.
  destruct (@C10_checksum_address sample.Addresses
              "0x0000000000000000000000000000000000000001" [0; 0])
    as (_ & _ & _ & Hcontract & Hmust & _).
  split.
  - apply Hcontract; [discriminate | reflexivity].
  - apply Hmust. reflexivity.
Defined.

End Samples.

(** ** More on the port: decimal writing and foreign bytes *)

Section DecimalFacts.
Import strconv.

Lemma digit_char_val (d : Z) :
  0 <= d <= 9 → byte_val (decimal.digit_char d) = 48 + d.
Proof.
  intros Hd. unfold byte_val, decimal.digit_char.
  rewrite N_ascii_embedding; lia.
Qed.

Lemma digit_char_is_digit (d : Z) :
  0 <= d <= 9 → is_digit (decimal.digit_char d) = true.
Proof.
  intros Hd. unfold is_digit. rewrite digit_char_val by assumption.
  apply andb_true_iff. lia.
Qed.

(** Reading what was written: the digits of [v] put before [acc] read,
    from 0, as [acc] reads from [v]. *)
Lemma digits_value_digits (fuel : nat) : ∀ v acc,
  0 <= v < 10 ^ Z.of_nat fuel →
  digits_value (decimal.digits fuel v acc) 0 = digits_value acc v.
Proof.
  induction fuel as [| fuel IH]; intros v acc Hv.
  - cbn in Hv. assert (v = 0) as -> by lia. reflexivity.
  - rewrite Nat2Z.inj_succ, Z.pow_succ_r in Hv by lia.
    pose proof (Z.mod_pos_bound v 10 ltac:(lia)) as Hmod.
    pose proof (Z.div_mod v 10 ltac:(lia)) as Hdiv.
    cbn [decimal.digits]. cbv zeta.
    destruct (Z.eqb_spec (v / 10) 0) as [Hzero | Hnz].
    + cbn [digits_value]. rewrite digit_char_is_digit by lia.
      rewrite digit_char_val by lia. f_equal. lia.
    + rewrite IH.
      * cbn [digits_value]. rewrite digit_char_is_digit by lia.
        rewrite digit_char_val by lia. f_equal. lia.
      * split; [apply Z.div_pos; lia |].
        apply Z.div_lt_upper_bound; lia.
Qed.

Lemma digits_starts_with_digit (fuel : nat) : ∀ v acc,
  0 <= v → fuel ≠ O ∨ decimal.starts_with_digit acc →
  decimal.starts_with_digit (decimal.digits fuel v acc).
Proof.
  induction fuel as [| fuel IH]; intros v acc Hv Hstart.
  - destruct Hstart as [Hfuel | Hacc]; [contradiction | exact Hacc].
  - pose proof (Z.mod_pos_bound v 10 ltac:(lia)) as Hmod.
    cbn [decimal.digits]. cbv zeta.
    destruct (Z.eqb_spec (v / 10) 0) as [Hzero | Hnz].
    + apply digit_char_is_digit. lia.
    + apply IH; [apply Z.div_pos; lia |]. right. apply digit_char_is_digit. lia.
Qed.

(** [Atoi] reads back what [decimal.text] writes. *)
Lemma Atoi_text (v : Z) :
  0 <= v <= 2 ^ 63 - 1 → Atoi (decimal.text v) = (v, None).
Proof.
  intros Hv. apply Atoi_accepts. split; [| unfold fits_int; lia].
  unfold decimal.text.
  assert (Hrange : 0 <= v < 10 ^ Z.of_nat 20).
  { change (10 ^ Z.of_nat 20) with 100000000000000000000.
    change (2 ^ 63 - 1) with 9223372036854775807 in Hv. lia. }
  pose proof (digits_value_digits 20 v "" Hrange) as Hread.
  pose proof (digits_starts_with_digit 20 v "" ltac:(lia) ltac:(left; discriminate))
    as Hstart.
  destruct (decimal.digits 20 v "") as [| c rest]; [contradiction |].
  cbn [decimal.starts_with_digit] in Hstart.
  unfold decimal_value.
  assert (Hplus : Ascii.eqb c "+" = false).
  { apply Ascii.eqb_neq. intros ->. discriminate. }
  assert (Hminus : Ascii.eqb c "-" = false).
  { apply Ascii.eqb_neq. intros ->. discriminate. }
  rewrite Hplus, Hminus. exact Hread.
Qed.

(** A byte that is not a decimal digit makes the digits unreadable. *)
Lemma digits_value_foreign (before : string) : ∀ c after n,
  is_digit c = false → digits_value (before +:+ String c after) n = None.
Proof.
  induction before as [| b before IH]; intros c after n Hc.
  - change ("" +:+ String c after) with (String c after).
    cbn [digits_value]. now rewrite Hc.
  - change (String b before +:+ String c after)
      with (String b (before +:+ String c after)).
    cbn [digits_value]. destruct (is_digit b); [| reflexivity]. now apply IH.
Qed.

Lemma decimal_value_foreign (before after : string) (c : ascii) :
  is_digit c = false →
  before ≠ "" ∨ (c ≠ "+"%char ∧ c ≠ "-"%char) →
  decimal_value (before +:+ String c after) = None.
Proof.
  intros Hc Hwhere. destruct before as [| b before].
  - destruct Hwhere as [Hne | [Hplus Hminus]]; [contradiction |].
    change ("" +:+ String c after) with (String c after). unfold decimal_value.
    apply Ascii.eqb_neq in Hplus, Hminus. rewrite Hplus, Hminus.
    exact (digits_value_foreign "" c after 0 Hc).
  - change (String b before +:+ String c after)
      with (String b (before +:+ String c after)).
    unfold decimal_value.
    assert (Hrest : before +:+ String c after ≠ "") by (destruct before; discriminate).
    pose proof (digits_value_foreign before c after 0 Hc) as Hnone.
    destruct (Ascii.eqb b "+"); [| destruct (Ascii.eqb b "-")].
    + destruct (before +:+ String c after); [contradiction | exact Hnone].
    + destruct (before +:+ String c after); [contradiction |]. now rewrite Hnone.
    + exact (digits_value_foreign (String b before) c after 0 Hc).
Qed.

End DecimalFacts.

(** ** More on the loader *)

Section LoaderMore.
Context `{Quoting, params.Configs, ethereum.Constants}.
Import configuration.

(** When mode, network and admin-skip flag pass, the error is the
    port's. *)
Lemma first_error_port (environ : gmap string string) :
  os.Getenv "MODE" environ = "ONLINE" ∨ os.Getenv "MODE" environ = "OFFLINE" →
  os.Getenv "NETWORK" environ = "MAINNET" ∨ os.Getenv "NETWORK" environ = "ORCHARD"
    ∨ os.Getenv "NETWORK" environ = "LOCAL" →
  os.Getenv "SKIP_GO_QUAI_ADMIN" environ = ""
    ∨ os.Getenv "SKIP_GO_QUAI_ADMIN" environ ∈ spec.true_tokens
    ∨ os.Getenv "SKIP_GO_QUAI_ADMIN" environ ∈ spec.false_tokens →
  spec.first_error (spec.field_errors environ)
  = spec.port_error (os.Getenv "PORT" environ).
Proof.
  intros Hmode Hnetwork Hskip.
  apply mode_error_None in Hmode. apply network_error_None in Hnetwork.
  apply skipAdmin_error_None in Hskip.
  unfold spec.field_errors, spec.nodeURL_error. cbn [spec.first_error].
  rewrite Hmode, Hnetwork, Hskip. now destruct (spec.port_error _).
Qed.

(** X1. With a valid MODE, an empty NETWORK gives the error "NETWORK must
    be populated" and a NETWORK that is none of "MAINNET", "ORCHARD",
    "LOCAL" (compared byte for byte) gives an error whose text is the
    value followed by " is not a valid network", whatever GOQUAI,
    SKIP_GO_QUAI_ADMIN and PORT hold. *)
Theorem X1_network_errors (environ : gmap string string) :
  let mode := os.Getenv "MODE" environ in
  let network := os.Getenv "NETWORK" environ in
  let result := (LoadConfiguration environ).1 in
  mode = "ONLINE" ∨ mode = "OFFLINE" →
  (network = "" → result = (None, Some (errors.New "NETWORK must be populated"))) ∧
  (network ≠ "" → network ≠ "MAINNET" → network ≠ "ORCHARD" → network ≠ "LOCAL" →
   ∃ e, result = (None, Some e) ∧
        errors.Error e = network +:+ " is not a valid network" ∧
        errors.Unwrap e = None ∧
        spec.contains network (errors.Error e)).
Proof.
  cbv zeta. intros Hmode. apply mode_error_None in Hmode. split.
  - intros Hnetwork. apply load_failure.
    unfold spec.field_errors. cbn [spec.first_error].
    rewrite Hmode, Hnetwork. reflexivity.
  - intros Hne Hm Ho Hl.
    exists (fmt.Errorf_s " is not a valid network" (os.Getenv "NETWORK" environ)).
    split; [| split; [| split]]; try reflexivity.
    + apply load_failure. unfold spec.field_errors. cbn [spec.first_error].
      rewrite Hmode. now rewrite network_error_invalid.
    + apply contains_prefix.
Qed.

(** X2. The load succeeds exactly when MODE is "ONLINE" or "OFFLINE",
    NETWORK is "MAINNET", "ORCHARD" or "LOCAL", SKIP_GO_QUAI_ADMIN is
    empty or one of the twelve boolean tokens, and PORT is the decimal
    text of a strictly positive [int]. *)
Theorem X2_success_iff (environ : gmap string string) :
  let mode := os.Getenv "MODE" environ in
  let network := os.Getenv "NETWORK" environ in
  let skip := os.Getenv "SKIP_GO_QUAI_ADMIN" environ in
  let port := os.Getenv "PORT" environ in
  (∃ c, (LoadConfiguration environ).1 = (Some c, None)) ↔
  (mode = "ONLINE" ∨ mode = "OFFLINE") ∧
  (network = "MAINNET" ∨ network = "ORCHARD" ∨ network = "LOCAL") ∧
  (skip = "" ∨ skip ∈ spec.true_tokens ∨ skip ∈ spec.false_tokens) ∧
  (∃ v, spec.parses_as port v ∧ 0 < v).
Proof.
  cbv zeta.
  rewrite <- mode_error_None, <- network_error_None, <- skipAdmin_error_None,
    <- port_error_None, <- first_error_None.
  split.
  - intros [c Hload]. now apply load_success in Hload.
  - intros Hnone. rewrite LoadConfiguration_result.
    destruct (load_cases environ) as [(e & He & _) | (c & _ & _ & ->)];
      [congruence | eauto].
Qed.

(** X4. The port of a configuration returned is the value of PORT read
    as decimal text, strictly positive and at most [2 ^ 63 - 1]. *)
Theorem X4_port_range (environ : gmap string string) (c : Configuration) :
  (LoadConfiguration environ).1 = (Some c, None) →
  spec.parses_as (os.Getenv "PORT" environ) (Port c) ∧
  0 < Port c <= 2 ^ 63 - 1.
Proof.
  intros Hload. apply load_success in Hload as [Hfirst Hc].
  apply first_error_None in Hfirst as (_ & _ & _ & Hport).
  apply port_error_None in Hport as (v & Hparse & Hpos).
  unfold spec.configuration_of in Hc.
  destruct (spec.networkTable _); [| discriminate].
  cbn in Hc. injection Hc as <-. cbn [Port].
  rewrite (Atoi_accepts _ _ Hparse). cbn [fst].
  split; [assumption |]. destruct Hparse as [_ Hfit]. unfold strconv.fits_int in Hfit.
  lia.
Qed.

(** X5. Once mode, network and admin-skip flag have passed: a PORT that
    is the decimal text of an [int] not above zero gives an error that
    unwraps to nil and whose text is the rendering of a nil operand,
    "%!w(<nil>)", followed by ": unable to parse port " and the raw
    text; a non-empty PORT that is not the decimal text of an [int]
    gives an error that wraps the [NumError] of [Atoi], which carries the
    raw text. *)
Theorem X5_port_error_shape (environ : gmap string string) :
  let mode := os.Getenv "MODE" environ in
  let network := os.Getenv "NETWORK" environ in
  let skip := os.Getenv "SKIP_GO_QUAI_ADMIN" environ in
  let port := os.Getenv "PORT" environ in
  let result := (LoadConfiguration environ).1 in
  mode = "ONLINE" ∨ mode = "OFFLINE" →
  network = "MAINNET" ∨ network = "ORCHARD" ∨ network = "LOCAL" →
  skip = "" ∨ skip ∈ spec.true_tokens ∨ skip ∈ spec.false_tokens →
  (∀ v, spec.parses_as port v → v ≤ 0 →
        ∃ e, result = (None, Some e) ∧
             errors.Error e = "%!w(<nil>): unable to parse port " +:+ port ∧
             errors.Unwrap e = None) ∧
  (port ≠ "" → (∀ v, ¬ spec.parses_as port v) →
   ∃ e cause,
     result = (None, Some e) ∧
     errors.Unwrap e = Some (errors.numError (strconv.mkNumError "Atoi" port cause)) ∧
     errors.Error e =
       errors.Error (errors.numError (strconv.mkNumError "Atoi" port cause))
         +:+ ": unable to parse port " +:+ port).
Proof.
  cbv zeta. intros Hmode Hnetwork Hskip.
  pose proof (first_error_port environ Hmode Hnetwork Hskip) as Hfirst.
  split.
  - intros v Hparse Hle.
    exists (errors.wrapError
              ("%!w(<nil>): unable to parse port " +:+ os.Getenv "PORT" environ) None).
    split; [| split; reflexivity].
    apply load_failure. rewrite Hfirst. unfold spec.port_error.
    assert (os.Getenv "PORT" environ ≠ "")
      by (intros Hempty; rewrite Hempty in Hparse; destruct Hparse; discriminate).
    rewrite decide_False by assumption. rewrite (Atoi_accepts _ _ Hparse).
    now rewrite decide_True by assumption.
  - intros Hne Hno. destruct (Atoi_rejects _ Hno) as (i & cause & Hatoi).
    exists (fmt.Errorf_w_s ": unable to parse port "
              (Some (errors.numError
                       (strconv.mkNumError "Atoi" (os.Getenv "PORT" environ) cause)))
              (os.Getenv "PORT" environ)), cause.
    split; [| split; reflexivity].
    apply load_failure. rewrite Hfirst. unfold spec.port_error.
    rewrite decide_False by assumption. rewrite Hatoi. reflexivity.
Qed.

Lemma Getenv_delete_ne (key key' : string) (environ : gmap string string) :
  key' ≠ key → os.Getenv key (delete key' environ) = os.Getenv key environ.
Proof. intros Hne. unfold os.Getenv. now rewrite lookup_delete_ne. Qed.

(** X3. The result depends on the environment through MODE, NETWORK,
    GOQUAI, SKIP_GO_QUAI_ADMIN and PORT only: environments that agree on
    these five give equal results, so setting or unsetting any other
    variable changes nothing. *)
Theorem X3_reads_five_variables (environ : gmap string string) :
  let five := ["MODE"; "NETWORK"; "GOQUAI"; "SKIP_GO_QUAI_ADMIN"; "PORT"] in
  (∀ environ',
     (∀ key, key ∈ five → os.Getenv key environ' = os.Getenv key environ) →
     (LoadConfiguration environ').1 = (LoadConfiguration environ).1) ∧
  (∀ key value, key ∉ five →
     (LoadConfiguration (<[key := value]> environ)).1 = (LoadConfiguration environ).1) ∧
  (∀ key, key ∉ five →
     (LoadConfiguration (delete key environ)).1 = (LoadConfiguration environ).1).
Proof.
  cbv zeta. split; [| split].
  - intros environ' Hsame. now apply LoadConfiguration_reads_five.
  - intros key value Hother. apply LoadConfiguration_reads_five.
    intros key' Hin. apply Getenv_insert_ne. intros ->. contradiction.
  - intros key Hother. apply LoadConfiguration_reads_five.
    intros key' Hin. apply Getenv_delete_ne. intros ->. contradiction.
Qed.

(** X6. Each field of the configuration depends on one variable: two
    successful loads agree on the mode when their MODE agree, on
    network, genesis block identifier, chain parameters and launch
    arguments when their NETWORK agree, on node URL and [RemoteGoQuai]
    when their GOQUAI agree, on the admin-skip flag when their
    SKIP_GO_QUAI_ADMIN agree, and on the port when their PORT agree. *)
Theorem X6_field_dependence (environ environ' : gmap string string)
    (c c' : Configuration) :
  (LoadConfiguration environ).1 = (Some c, None) →
  (LoadConfiguration environ').1 = (Some c', None) →
  (os.Getenv "MODE" environ = os.Getenv "MODE" environ' → Mode_ c = Mode_ c') ∧
  (os.Getenv "NETWORK" environ = os.Getenv "NETWORK" environ' →
   Network c = Network c' ∧
   GenesisBlockIdentifier c = GenesisBlockIdentifier c' ∧
   Params c = Params c' ∧
   GoQuaiArguments c = GoQuaiArguments c') ∧
  (os.Getenv "GOQUAI" environ = os.Getenv "GOQUAI" environ' →
   GoQuaiURL c = GoQuaiURL c' ∧ RemoteGoQuai c = RemoteGoQuai c') ∧
  (os.Getenv "SKIP_GO_QUAI_ADMIN" environ = os.Getenv "SKIP_GO_QUAI_ADMIN" environ' →
   SkipGoQuaiAdmin c = SkipGoQuaiAdmin c') ∧
  (os.Getenv "PORT" environ = os.Getenv "PORT" environ' → Port c = Port c').
Proof.
  intros Hload Hload'.
  apply load_success in Hload as [_ Hc]. apply load_success in Hload' as [_ Hc'].
  unfold spec.configuration_of in Hc, Hc'.
  destruct (spec.networkTable (os.Getenv "NETWORK" environ)) as [entry |] eqn:Hentry;
    [| discriminate].
  destruct (spec.networkTable (os.Getenv "NETWORK" environ')) as [entry' |] eqn:Hentry';
    [| discriminate].
  cbn in Hc, Hc'. injection Hc as <-. injection Hc' as <-.
  cbn [Mode_ Network GenesisBlockIdentifier Params GoQuaiArguments GoQuaiURL
         RemoteGoQuai SkipGoQuaiAdmin Port].
  split; [| split; [| split; [| split]]].
  - intros Hsame. exact Hsame.
  - intros Hsame. rewrite Hsame in Hentry. rewrite Hentry in Hentry'.
    injection Hentry' as <-. auto.
  - intros Hsame. rewrite Hsame. auto.
  - intros Hsame. now rewrite Hsame.
  - intros Hsame. now rewrite Hsame.
Qed.

(** X7. The loader does not trim or skip anything in PORT: once mode,
    network and admin-skip flag have passed, a PORT with a byte that is
    not a decimal digit, other than a sign in first position, is
    rejected with an error that wraps the [NumError] of [Atoi]. *)
Theorem X7_port_foreign_byte (environ : gmap string string)
    (before after : string) (c : ascii) :
  let mode := os.Getenv "MODE" environ in
  let network := os.Getenv "NETWORK" environ in
  let skip := os.Getenv "SKIP_GO_QUAI_ADMIN" environ in
  let port := os.Getenv "PORT" environ in
  mode = "ONLINE" ∨ mode = "OFFLINE" →
  network = "MAINNET" ∨ network = "ORCHARD" ∨ network = "LOCAL" →
  skip = "" ∨ skip ∈ spec.true_tokens ∨ skip ∈ spec.false_tokens →
  port = before +:+ String c after →
  strconv.is_digit c = false →
  before ≠ "" ∨ (c ≠ "+"%char ∧ c ≠ "-"%char) →
  ∃ e cause,
    (LoadConfiguration environ).1 = (None, Some e) ∧
    errors.Unwrap e = Some (errors.numError (strconv.mkNumError "Atoi" port cause)).
Proof.
  cbv zeta. intros Hmode Hnetwork Hskip Hport Hc Hwhere.
  pose proof (first_error_port environ Hmode Hnetwork Hskip) as Hfirst.
  assert (Hno : ∀ v, ¬ spec.parses_as (os.Getenv "PORT" environ) v).
  { intros v [Hv _]. rewrite Hport in Hv.
    rewrite (decimal_value_foreign before after c Hc Hwhere) in Hv. discriminate. }
  assert (Hne : os.Getenv "PORT" environ ≠ "")
    by (rewrite Hport; destruct before; discriminate).
  destruct (Atoi_rejects _ Hno) as (i & cause & Hatoi).
  exists (fmt.Errorf_w_s ": unable to parse port "
            (Some (errors.numError
                     (strconv.mkNumError "Atoi" (os.Getenv "PORT" environ) cause)))
            (os.Getenv "PORT" environ)), cause.
  split; [| reflexivity].
  apply load_failure. rewrite Hfirst. unfold spec.port_error.
  rewrite decide_False by assumption. rewrite Hatoi. reflexivity.
Qed.

(** X8. The loader puts no bound on the port below the size of an
    [int]: once mode, network and admin-skip flag have passed, the
    decimal text of any [v] with [0 < v <= 2 ^ 63 - 1] loads, and the
    port returned is [v]. *)
Theorem X8_every_positive_int_loads (environ : gmap string string) (v : Z) :
  let mode := os.Getenv "MODE" environ in
  let network := os.Getenv "NETWORK" environ in
  let skip := os.Getenv "SKIP_GO_QUAI_ADMIN" environ in
  mode = "ONLINE" ∨ mode = "OFFLINE" →
  network = "MAINNET" ∨ network = "ORCHARD" ∨ network = "LOCAL" →
  skip = "" ∨ skip ∈ spec.true_tokens ∨ skip ∈ spec.false_tokens →
  0 < v <= 2 ^ 63 - 1 →
  os.Getenv "PORT" environ = decimal.text v →
  ∃ c, (LoadConfiguration environ).1 = (Some c, None) ∧ Port c = v.
Proof.
  cbv zeta. intros Hmode Hnetwork Hskip Hv Hport.
  pose proof (first_error_port environ Hmode Hnetwork Hskip) as Hfirst.
  assert (Hatoi : strconv.Atoi (os.Getenv "PORT" environ) = (v, None))
    by (rewrite Hport; apply Atoi_text; lia).
  assert (Hnone : spec.first_error (spec.field_errors environ) = None).
  { rewrite Hfirst. apply port_error_None. exists v.
    split; [now apply Atoi_ok_inv | lia]. }
  destruct (load_cases environ) as [(e & He & _) | (c & _ & Hc & Hload)];
    [congruence |].
  exists c. rewrite LoadConfiguration_result. split; [assumption |].
  unfold spec.configuration_of in Hc.
  destruct (spec.networkTable _); [| discriminate].
  cbn in Hc. injection Hc as <-. cbn [Port]. now rewrite Hatoi.
Qed.

(** X9. The errors of the loader are of eight kinds, and only the two
    parse failures wrap a cause: a returned error is one of the five
    plain errors (MODE or NETWORK empty or invalid, PORT empty), the
    error of a port that parses but is not above zero, which unwraps to
    nil and has the text "%!w(<nil>): unable to parse port " followed
    by the raw text, or an error that wraps the [NumError] of
    [ParseBool] on SKIP_GO_QUAI_ADMIN or of [Atoi] on PORT. *)
Theorem X9_error_shapes (environ : gmap string string) (e : errors.error) :
  let mode := os.Getenv "MODE" environ in
  let network := os.Getenv "NETWORK" environ in
  let skip := os.Getenv "SKIP_GO_QUAI_ADMIN" environ in
  let port := os.Getenv "PORT" environ in
  (LoadConfiguration environ).1 = (None, Some e) →
  (errors.Unwrap e = None ∧
   (e = errors.errorString "MODE must be populated" ∨
    e = errors.errorString (mode +:+ " is not a valid mode") ∨
    e = errors.errorString "NETWORK must be populated" ∨
    e = errors.errorString (network +:+ " is not a valid network") ∨
    e = errors.errorString "PORT must be populated" ∨
    errors.Error e = "%!w(<nil>): unable to parse port " +:+ port)) ∨
  (errors.Unwrap e = Some (errors.numError (strconv.syntaxError "ParseBool" skip)) ∧
   errors.Error e =
     errors.Error (errors.numError (strconv.syntaxError "ParseBool" skip))
       +:+ ": unable to parse SKIP_GO_QUAI_ADMIN " +:+ skip) ∨
  (∃ cause,
     errors.Unwrap e = Some (errors.numError (strconv.mkNumError "Atoi" port cause)) ∧
     errors.Error e =
       errors.Error (errors.numError (strconv.mkNumError "Atoi" port cause))
         +:+ ": unable to parse port " +:+ port).
Proof.
  cbv zeta. intros Hload.
  assert (Hfirst : spec.first_error (spec.field_errors environ) = Some e).
  { rewrite <- load_error, Hload. reflexivity. }
  unfold spec.field_errors, spec.nodeURL_error in Hfirst.
  cbn [spec.first_error] in Hfirst.
  unfold spec.mode_error in Hfirst.
  case_decide; [| case_decide; injection Hfirst as <-; left; split; auto].
  unfold spec.network_error in Hfirst.
  case_decide; [| case_decide; injection Hfirst as <-; left; split; auto 6].
  unfold spec.skipAdmin_error in Hfirst.
  case_decide; [| injection Hfirst as <-; right; left; split; reflexivity].
  unfold spec.port_error in Hfirst.
  case_decide; [injection Hfirst as <-; left; split; auto 8 |].
  pose proof (Atoi_spec (os.Getenv "PORT" environ)) as Hspec.
  destruct (strconv.Atoi (os.Getenv "PORT" environ)) as [i [nerr |]] eqn:Hatoi.
  - injection Hfirst as <-. right. right.
    assert (Hshape : ∃ cause,
               nerr = strconv.mkNumError "Atoi" (os.Getenv "PORT" environ) cause).
    { destruct (strconv.decimal_value _) as [v |];
        [destruct (decide (strconv.fits_int v)) |];
        try discriminate; destruct Hspec as (i' & cause & [= _ ->]); eauto. }
    destruct Hshape as [cause ->]. exists cause. split; reflexivity.
  - case_decide; [| discriminate]. injection Hfirst as <-. left. split; auto 10.
Qed.

End LoaderMore.

(** ** The port as a number *)

Section PortNumber.
Context `{Quoting, params.Configs, ethereum.Constants}.
Import configuration.

Lemma load_port_parses (environ : gmap string string) (v : Z) :
  os.Getenv "MODE" environ = "ONLINE" ∨ os.Getenv "MODE" environ = "OFFLINE" →
  os.Getenv "NETWORK" environ = "MAINNET" ∨ os.Getenv "NETWORK" environ = "ORCHARD"
    ∨ os.Getenv "NETWORK" environ = "LOCAL" →
  os.Getenv "SKIP_GO_QUAI_ADMIN" environ = ""
    ∨ os.Getenv "SKIP_GO_QUAI_ADMIN" environ ∈ spec.true_tokens
    ∨ os.Getenv "SKIP_GO_QUAI_ADMIN" environ ∈ spec.false_tokens →
  spec.parses_as (os.Getenv "PORT" environ) v → 0 < v →
  ∃ c, (LoadConfiguration environ).1 = (Some c, None) ∧ Port c = v.
Proof.
  intros Hmode Hnetwork Hskip Hparse Hpos.
  pose proof (first_error_port environ Hmode Hnetwork Hskip) as Hfirst.
  assert (Hnone : spec.first_error (spec.field_errors environ) = None).
  { rewrite Hfirst. apply port_error_None. eauto. }
  destruct (load_cases environ) as [(e & He & _) | (c & _ & Hc & Hload)];
    [congruence |].
  exists c. rewrite LoadConfiguration_result. split; [assumption |].
  unfold spec.configuration_of in Hc.
  destruct (spec.networkTable _); [| discriminate].
  cbn in Hc. injection Hc as <-. cbn [Port].
  now rewrite (Atoi_accepts _ _ Hparse).
Qed.

Lemma decimal_value_digits (digits : string) (v : Z) :
  digits ≠ "" → strconv.digits_value digits 0 = Some v →
  strconv.decimal_value digits = Some v ∧
  strconv.decimal_value ("+" +:+ digits) = Some v ∧
  strconv.decimal_value ("0" +:+ digits) = Some v.
Proof.
  intros Hne Hv. destruct digits as [| c rest]; [contradiction |].
  assert (Hc : strconv.is_digit c = true).
  { cbn [strconv.digits_value] in Hv. now destruct (strconv.is_digit c). }
  assert (Hplus : Ascii.eqb c "+" = false)
    by (apply Ascii.eqb_neq; intros ->; discriminate).
  assert (Hminus : Ascii.eqb c "-" = false)
    by (apply Ascii.eqb_neq; intros ->; discriminate).
  split; [| split].
  - unfold strconv.decimal_value. now rewrite Hplus, Hminus.
  - exact Hv.
  - exact Hv.
Qed.

(** X11. PORT is read as a number: once mode, network and admin-skip
    flag have passed, a text of decimal digits whose value [v] is a
    strictly positive [int] loads with port [v], and so does the same
    text after a plus sign or after a zero. *)
Theorem X11_port_sign_and_zeros (environ : gmap string string)
    (digits : string) (v : Z) :
  let mode := os.Getenv "MODE" environ in
  let network := os.Getenv "NETWORK" environ in
  let skip := os.Getenv "SKIP_GO_QUAI_ADMIN" environ in
  let port := os.Getenv "PORT" environ in
  mode = "ONLINE" ∨ mode = "OFFLINE" →
  network = "MAINNET" ∨ network = "ORCHARD" ∨ network = "LOCAL" →
  skip = "" ∨ skip ∈ spec.true_tokens ∨ skip ∈ spec.false_tokens →
  digits ≠ "" → strconv.digits_value digits 0 = Some v → 0 < v <= 2 ^ 63 - 1 →
  port = digits ∨ port = "+" +:+ digits ∨ port = "0" +:+ digits →
  ∃ c, (LoadConfiguration environ).1 = (Some c, None) ∧ Port c = v.
Proof.
  cbv zeta. intros Hmode Hnetwork Hskip Hne Hv Hrange Hport.
  destruct (decimal_value_digits digits v Hne Hv) as (Hplain & Hplus & Hzero).
  apply load_port_parses; try assumption; [| lia].
  split; [| unfold strconv.fits_int; lia].
  destruct Hport as [-> | [-> | ->]]; assumption.
Qed.

End PortNumber.

(** ** More on address checksumming *)

Section ChecksumMore.
Context `{common.Addresses}.

(** X10. What [MustChecksum] does is decided by the parser alone: it
    returns the parsed address exactly when the parser returns an
    address and no error; it ends the process with status 1, logging
    "invalid address " and the text, exactly when the parser returns an
    error, whether or not an address comes with it; and it panics
    exactly when the parser returns neither. *)
Theorem X10_must_checksum_outcomes (address : string) (location : common.Location) :
  let parsed := common.NewMixedcaseAddressFromString address location in
  let outcome := ethereum.MustChecksum address location in
  (∀ addr, outcome = Returns addr ↔
           ∃ ma, parsed = (Some ma, None) ∧ addr = common.MixedcaseAddress_Address ma) ∧
  (∀ code logged, outcome = Exits code logged ↔
                  parsed.2 ≠ None ∧ code = 1 ∧ logged = "invalid address " +:+ address) ∧
  (outcome = Panics ↔ parsed = (None, None)).
Proof.
  cbv zeta. unfold ethereum.MustChecksum, ethereum.ChecksumAddress.
  destruct (common.NewMixedcaseAddressFromString address location)
    as [[ma |] [err |]]; cbn [snd negb].
  - split; [| split].
    + intros addr. split; [discriminate | intros (ma' & Heq & _); discriminate].
    + intros code logged. split.
      * intros [= <- <-]. now repeat split.
      * intros (_ & -> & ->). reflexivity.
    + split; discriminate.
  - split; [| split].
    + intros addr. split.
      * intros [= <-]. eauto.
      * intros (ma' & [= <-] & ->). reflexivity.
    + intros code logged. split; [discriminate | intros (Herr & _); now destruct Herr].
    + split; discriminate.
  - split; [| split].
    + intros addr. split; [discriminate | intros (ma' & Heq & _); discriminate].
    + intros code logged. split.
      * intros [= <- <-]. now repeat split.
      * intros (_ & -> & ->). reflexivity.
    + split; discriminate.
  - split; [| split].
    + intros addr. split; [discriminate | intros (ma' & Heq & _); discriminate].
    + intros code logged. split; [discriminate | intros (Herr & _); now destruct Herr].
    + split; reflexivity.
Qed.

End ChecksumMore.

(** ** The further properties on concrete environments *)

Section MoreSamples.
#[local] Existing Instance sample.Quote.
#[local] Existing Instance sample.Configs.
#[local] Existing Instance sample.Constants.
Import configuration.

Lemma X1_witness :
  ∃ e, (LoadConfiguration (<["NETWORK" := "mainnet"]> sample.env_mainnet)).1
       = (None, Some e) ∧
       errors.Error e = "mainnet is not a valid network".
Proof.
  destruct (X1_network_errors (<["NETWORK" := "mainnet"]> sample.env_mainnet))
    as (_ & Hbad).
  - left. reflexivity.
  - destruct Hbad as (e & Hload & Htext & _); try discriminate.
    exists e. split; assumption.
Defined.

Lemma X4_witness :
  ∃ c, (LoadConfiguration sample.env_mainnet).1 = (Some c, None) ∧
       0 < Port c <= 2 ^ 63 - 1.
Proof.
  assert (Hload : ∃ c, (LoadConfiguration sample.env_mainnet).1 = (Some c, None))
    by (eexists; vm_compute; reflexivity).
  destruct Hload as [c Hload]. exists c. split; [assumption |].
  apply (X4_port_range sample.env_mainnet c Hload).
Defined.

Lemma X5_witness :
  ∃ e, (LoadConfiguration (<["PORT" := "-5"]> sample.env_mainnet)).1 = (None, Some e) ∧
       errors.Error e = "%!w(<nil>): unable to parse port -5" ∧
       errors.Unwrap e = None.
Proof.
  destruct (X5_port_error_shape (<["PORT" := "-5"]> sample.env_mainnet))
    as (Hnonpositive & _).
  - left. reflexivity.
  - left. reflexivity.
  - left. reflexivity.
  - destruct (Hnonpositive (-5)) as (e & Hload & Htext & Hunwrap).
    + split; [reflexivity | unfold strconv.fits_int; lia].
    + lia.
    + exists e. repeat split; assumption.
Defined.

Lemma X6_witness :
  ∃ c c',
    (LoadConfiguration sample.env_mainnet).1 = (Some c, None) ∧
    (LoadConfiguration (<["GOQUAI" := "http://blah"]> sample.env_mainnet)).1
      = (Some c', None) ∧
    Network c = Network c' ∧ Port c = Port c'.
Proof.
  assert (Hload : ∃ c, (LoadConfiguration sample.env_mainnet).1 = (Some c, None))
    by (eexists; vm_compute; reflexivity).
  assert (Hload' : ∃ c, (LoadConfiguration
                          (<["GOQUAI" := "http://blah"]> sample.env_mainnet)).1
                        = (Some c, None))
    by (eexists; vm_compute; reflexivity).
  destruct Hload as [c Hload]. destruct Hload' as [c' Hload'].
  destruct (X6_field_dependence _ _ c c' Hload Hload')
    as (_ & Hnetwork & _ & _ & Hport).
  exists c, c'. repeat split; try assumption.
  - apply Hnetwork. reflexivity.
  - apply Hport. reflexivity.
Defined.

Lemma X7_witness :
  ∃ e cause,
    (LoadConfiguration (<["PORT" := "80 "]> sample.env_mainnet)).1 = (None, Some e) ∧
    errors.Unwrap e = Some (errors.numError (strconv.mkNumError "Atoi" "80 " cause)).
Proof.
  destruct (X7_port_foreign_byte (<["PORT" := "80 "]> sample.env_mainnet) "80" "" " ")
    as (e & cause & Hload & Hunwrap).
  - left. reflexivity.
  - left. reflexivity.
  - left. reflexivity.
  - reflexivity.
  - reflexivity.
  - left. discriminate.
  - exists e, cause. split; [exact Hload | exact Hunwrap].
Defined.

Lemma X8_witness :
  ∃ c, (LoadConfiguration (<["PORT" := "70000"]> sample.env_mainnet)).1 = (Some c, None) ∧
       Port c = 70000.
Proof.
  apply (X8_every_positive_int_loads (<["PORT" := "70000"]> sample.env_mainnet) 70000).
  - left. reflexivity.
  - left. reflexivity.
  - left. reflexivity.
  - lia.
  - vm_compute. reflexivity.
Defined.

Lemma X9_witness :
  errors.Unwrap (errors.errorString "PORT must be populated") = None ∧
  (LoadConfiguration (<["PORT" := ""]> sample.env_mainnet)).1
  = (None, Some (errors.errorString "PORT must be populated")).
Proof.
  assert (Hload : (LoadConfiguration (<["PORT" := ""]> sample.env_mainnet)).1
                  = (None, Some (errors.errorString "PORT must be populated")))
    by (vm_compute; reflexivity).
  split; [| exact Hload].
  destruct (X9_error_shapes _ _ Hload) as [[Hplain _] | [[Hwrap _] | (cause & Hwrap & _)]].
  - exact Hplain.
  - discriminate.
  - discriminate.
Defined.

Lemma X11_witness :
  ∃ c, (LoadConfiguration (<["PORT" := "+0080"]> sample.env_mainnet)).1 = (Some c, None) ∧
       Port c = 80.
Proof.
  apply (X11_port_sign_and_zeros (<["PORT" := "+0080"]> sample.env_mainnet) "0080" 80).
  - left. reflexivity.
  - left. reflexivity.
  - left. reflexivity.
  - discriminate.
  - reflexivity.
  - lia.
  - right. left. reflexivity.
Defined.

End MoreSamples.
